(** * Geofence exit detection and auto clock-out: a shallow embedding

    The development follows the edge functions of the repository:

    - [TrackLocation]       the ingestion path (track-location): geofence
                            math, shift-end parsing, the last-hour window and
                            the request handler;
    - [CheckGraceExpiry]    the grace sweep (check-grace-expiry);
    - [CheckOtAutoclockout] the overtime sweep (check-ot-autoclockout);
    - [CheckClockStatus]    the overtime part of check-clock-status;
    - [OvertimeMonitor]     the two overtime sweeps side by side.

    Modelling conventions.

    - A JavaScript [number] is an exact rational ([Q]); rounding of IEEE
      doubles, NaN and the infinities are outside the model.  Equality of
      numbers is [Qeq] ([==]).
    - An instant (a [Date], a [timestamptz] column) is its epoch time in
      milliseconds ([Z]).  All the clock reads of one invocation return the
      same instant [now].
    - A table is the list of its rows; [select]/[update]/[delete] with
      filters are [filter] and [map] over it.  Writes never fail.
    - Free text that only feeds logs or message bodies is not modelled. *)

From Stdlib Require Import String Ascii DecimalString ZArith QArith Qminmax.
From Stdlib Require Import List Bool Lia Lqa.
Import ListNotations.

Local Open Scope Z_scope.

(** ** Numbers *)

Definition number := Q.
Bind Scope Q_scope with number.

Definition Qlt_bool (x y : Q) : bool := negb (Qle_bool y x).

Lemma Qlt_bool_iff (x y : Q) : Qlt_bool x y = true <-> (x < y)%Q.
Proof.
  unfold Qlt_bool. rewrite negb_true_iff. split; intro H.
  - apply Qnot_le_lt. intro Hle. apply Qle_bool_iff in Hle. congruence.
  - destruct (Qle_bool y x) eqn:E; [|reflexivity].
    apply Qle_bool_iff in E. exfalso. exact (Qlt_not_le _ _ H E).
Qed.

Lemma Qle_bool_false_iff (x y : Q) : Qle_bool x y = false <-> (y < x)%Q.
Proof.
  rewrite <- Qlt_bool_iff. unfold Qlt_bool.
  destruct (Qle_bool x y); simpl; intuition congruence.
Qed.

(** ** Generic table operations (the query builder of the data store) *)

Section Tables.
Context {row : Type}.

(** [.single()]: the row when the filter leaves exactly one, else an
    error, which every caller treats as "no data". *)
Definition single (rows : list row) : option row :=
  match rows with
  | [r] => Some r
  | _ => None
  end.

(** [.maybeSingle()]: like [single]; zero rows is [null] without error and
    several rows an error, both of which leave [data] null. *)
Definition maybeSingle (rows : list row) : option row :=
  match rows with
  | [r] => Some r
  | _ => None
  end.

Definition update_where (p : row -> bool) (f : row -> row)
    (rows : list row) : list row :=
  map (fun r => if p r then f r else r) rows.

Definition delete_where (p : row -> bool) (rows : list row) : list row :=
  filter (fun r => negb (p r)) rows.

Lemma single_Some (rows : list row) (r : row) :
  single rows = Some r -> rows = [r].
Proof.
  destruct rows as [|a [|b t]]; simpl; intro H; inversion H; reflexivity.
Qed.

Lemma update_where_length p f (rows : list row) :
  length (update_where p f rows) = length rows.
Proof. apply length_map. Qed.

Lemma update_where_none p f (rows : list row) :
  (forall r, In r rows -> p r = false) -> update_where p f rows = rows.
Proof.
  induction rows as [|a t IH]; simpl; intro H; [reflexivity|].
  rewrite (H a (or_introl eq_refl)). f_equal. apply IH.
  intros r Hr. apply H. now right.
Qed.

Lemma delete_where_none p (rows : list row) :
  (forall r, In r rows -> p r = false) -> delete_where p rows = rows.
Proof.
  induction rows as [|a t IH]; simpl; intro H; [reflexivity|].
  rewrite (H a (or_introl eq_refl)). simpl. f_equal. apply IH.
  intros r Hr. apply H. now right.
Qed.

Lemma filter_none (p : row -> bool) (rows : list row) :
  (forall r, In r rows -> p r = false) -> filter p rows = [].
Proof.
  induction rows as [|a t IH]; simpl; intro H; [reflexivity|].
  rewrite (H a (or_introl eq_refl)). apply IH.
  intros r Hr. apply H. now right.
Qed.
Lemma filter_nil_forall (p : row -> bool) (rows : list row) :
  filter p rows = [] -> forall r, In r rows -> p r = false.
Proof.
  intros H r Hr. destruct (p r) eqn:E; [|reflexivity].
  assert (Hin : In r (filter p rows)) by (apply filter_In; split; assumption).
  rewrite H in Hin. destruct Hin.
Qed.

(** A filter that leaves exactly one row pins down its place in the table. *)
Lemma filter_single_split (p : row -> bool) (rows : list row) (x : row) :
  filter p rows = [x] ->
  exists l1 l2, rows = l1 ++ x :: l2
                /\ filter p l1 = [] /\ filter p l2 = [] /\ p x = true.
Proof.
  induction rows as [|a t IH]; simpl; [discriminate|].
  destruct (p a) eqn:E; intro H.
  - inversion H; subst. exists [], t. simpl. auto.
  - destruct (IH H) as (l1 & l2 & -> & H1 & H2 & H3).
    exists (a :: l1), l2. simpl. rewrite E. auto.
Qed.

Lemma update_where_split (q : row -> bool) (f : row -> row)
    (l1 l2 : list row) (x : row) :
  (forall r, In r l1 -> q r = false) ->
  (forall r, In r l2 -> q r = false) ->
  q x = true ->
  update_where q f (l1 ++ x :: l2) = l1 ++ f x :: l2.
Proof.
  intros H1 H2 Hx. unfold update_where. rewrite map_app. simpl. rewrite Hx.
  fold (update_where q f l1). fold (update_where q f l2).
  rewrite (update_where_none q f l1 H1), (update_where_none q f l2 H2).
  reflexivity.
Qed.

Lemma filter_and (p q : row -> bool) (rows : list row) :
  filter (fun r => p r && q r) rows = filter q (filter p rows).
Proof.
  induction rows as [|a t IH]; simpl; [reflexivity|].
  destruct (p a); simpl; [destruct (q a)|]; rewrite IH; reflexivity.
Qed.

End Tables.

(** [v === null] on a nullable column. *)
Definition isNull {A} (v : option A) : bool :=
  match v with None => true | Some _ => false end.

(** ** The persisted model *)

(** [geofence_events.event_type]. *)
Inductive EventType := location_fix | exit_detected | re_entry | exit_confirmed.

Definition EventType_eqb (a b : EventType) : bool :=
  match a, b with
  | location_fix, location_fix | exit_detected, exit_detected
  | re_entry, re_entry | exit_confirmed, exit_confirmed => true
  | _, _ => false
  end.

Lemma EventType_eqb_eq (a b : EventType) : EventType_eqb a b = true <-> a = b.
Proof. destruct a, b; simpl; split; intro H; try reflexivity; discriminate. Qed.

(** A row of [geofence_events]; [ev_id] is generated by the store. *)
Record GeofenceEvent := {
  ev_id : nat;
  ev_worker_id : string;
  clock_entry_id : string;
  shift_date : Z;
  event_type : EventType;
  latitude : number;
  longitude : number;
  accuracy : number;
  distance_from_center : number;
  job_radius : number;
  safe_out_threshold : number;
  timestamp : Z;
  resolved_at : option Z
}.

(** The filter [.eq("event_type", t)]. *)
Definition has_type (t : EventType) (e : GeofenceEvent) : bool :=
  EventType_eqb (event_type e) t.

(** The [geofence_exit_data] JSON column. *)
Record ExitData := {
  xd_distance : number;
  xd_accuracy : number;
  xd_threshold : number;
  xd_radius : number
}.

(** A row of [clock_entries] (a session). *)
Record ClockEntry := {
  ce_id : string;
  ce_worker_id : string;
  ce_job_id : string;
  clock_in : Z;
  clock_out : option Z;
  clock_out_lat : option number;
  clock_out_lng : option number;
  is_overtime : bool;
  auto_clocked_out : bool;
  auto_clockout_type : option string;
  auto_clockout_reason : option string;
  total_hours : option number;
  geofence_exit_data : option ExitData;
  status : option string
}.

(** A row of [jobs] (a site); every column the handler reads is nullable. *)
Record Job := {
  j_id : string;
  j_latitude : option number;
  j_longitude : option number;
  geofence_radius : option number;
  geofence_enabled : option bool
}.

Record Worker := {
  w_id : string;
  shift_end : option string
}.

(** [dedupe_key] is kept as the components the key string is built from. *)
Inductive DedupeKey :=
| WorkerDateType (worker : string) (date : Z) (type : string)
| OtAuto (entry : string) (clockOutTime : Z).

Record Notification := {
  n_worker_id : string;
  n_title : string;
  n_type : string;
  dedupe_key : DedupeKey;
  created_at : Z
}.

Record NotificationLog := {
  nl_worker_id : string;
  notification_type : string;
  nl_shift_date : Z;
  sent_at : Z;
  canceled : bool
}.

Record Db := {
  clock_entries : list ClockEntry;
  geofence_events : list GeofenceEvent;
  notifications : list Notification;
  notification_log : list NotificationLog;
  jobs : list Job;
  workers : list Worker;
  next_event_id : nat
}.

Definition set_clock_entries (db : Db) (l : list ClockEntry) : Db :=
  {| clock_entries := l; geofence_events := geofence_events db;
     notifications := notifications db;
     notification_log := notification_log db;
     jobs := jobs db; workers := workers db;
     next_event_id := next_event_id db |}.

Definition set_geofence_events (db : Db) (l : list GeofenceEvent) : Db :=
  {| clock_entries := clock_entries db; geofence_events := l;
     notifications := notifications db;
     notification_log := notification_log db;
     jobs := jobs db; workers := workers db;
     next_event_id := next_event_id db |}.

(** [from("geofence_events").insert(row)]: the store assigns the id. *)
Definition insert_event (db : Db) (mk : nat -> GeofenceEvent) : Db :=
  {| clock_entries := clock_entries db;
     geofence_events := geofence_events db ++ [mk (next_event_id db)];
     notifications := notifications db;
     notification_log := notification_log db;
     jobs := jobs db; workers := workers db;
     next_event_id := S (next_event_id db) |}.

Definition insert_notification (db : Db) (n : Notification) : Db :=
  {| clock_entries := clock_entries db; geofence_events := geofence_events db;
     notifications := notifications db ++ [n];
     notification_log := notification_log db;
     jobs := jobs db; workers := workers db;
     next_event_id := next_event_id db |}.

Definition insert_notification_log (db : Db) (n : NotificationLog) : Db :=
  {| clock_entries := clock_entries db; geofence_events := geofence_events db;
     notifications := notifications db;
     notification_log := notification_log db ++ [n];
     jobs := jobs db; workers := workers db;
     next_event_id := next_event_id db |}.

Definition DedupeKey_eqb (a b : DedupeKey) : bool :=
  match a, b with
  | WorkerDateType w d t, WorkerDateType w' d' t' =>
      String.eqb w w' && (d =? d') && String.eqb t t'
  | OtAuto e c, OtAuto e' c' => String.eqb e e' && (c =? c')
  | _, _ => false
  end.

(** [.order("timestamp", { ascending: false })]. *)
Fixpoint insertDesc (e : GeofenceEvent) (l : list GeofenceEvent)
  : list GeofenceEvent :=
  match l with
  | [] => [e]
  | x :: r => if timestamp x <=? timestamp e then e :: l
              else x :: insertDesc e r
  end.

Definition orderByTimestampDesc (l : list GeofenceEvent) : list GeofenceEvent :=
  fold_right insertDesc [] l.

(** The unresolved [exit_detected] rows of a session. *)
Definition unresolvedExit (entryId : string) (e : GeofenceEvent) : bool :=
  String.eqb (clock_entry_id e) entryId
  && has_type exit_detected e
  && isNull (resolved_at e).

(** [update({ resolved_at: t })] on the unresolved exits of a session. *)
Definition resolveExits (db : Db) (entryId : string) (t : Z) : Db :=
  set_geofence_events db
    (update_where (unresolvedExit entryId)
       (fun e =>
          {| ev_id := ev_id e; ev_worker_id := ev_worker_id e;
             clock_entry_id := clock_entry_id e; shift_date := shift_date e;
             event_type := event_type e;
             latitude := latitude e; longitude := longitude e;
             accuracy := accuracy e;
             distance_from_center := distance_from_center e;
             job_radius := job_radius e;
             safe_out_threshold := safe_out_threshold e;
             timestamp := timestamp e; resolved_at := Some t |})
       (geofence_events db)).

(** ** Dates *)

Definition MS_PER_HOUR : Z := 1000 * 60 * 60.
Definition MS_PER_DAY : Z := 24 * MS_PER_HOUR.

(** [d.toISOString().split("T")[0]]: the UTC calendar day, as a day number. *)
Definition isoDate (d : Z) : Z := d / MS_PER_DAY.

(** [(a.getTime() - b.getTime()) / (1000 * 60 * 60)]. *)
Definition hoursBetween (a b : Z) : number :=
  (inject_Z (a - b) / inject_Z MS_PER_HOUR)%Q.

(** * track-location *)

Module TrackLocation.

(** ** Geofence math *)

(** [SAFE_OUT_TABLE]: safe-out thresholds keyed by geofence radius. *)
Definition SAFE_OUT_TABLE : list (number * number) :=
  [ (50, 90); (100, 150); (200, 260); (300, 380); (400, 500); (500, 625) ]%Q.

Definition GRACE_MINUTES : Z := 4.
Definition RACE_BUFFER_SEC : Z := 60.
Definition ACCURACY_PASS_M : number := 50%Q.
Definition AUTO_WINDOW_MINUTES : Z := 60.

(** [TABLE[key]]: property lookup by a numeric key; [None] is [undefined]. *)
Fixpoint table_get (tbl : list (number * number)) (key : number)
  : option number :=
  match tbl with
  | [] => None
  | (k, v) :: rest => if Qeq_bool k key then Some v else table_get rest key
  end.

(** [v || d] on a possibly undefined number: [undefined] and [0] are falsy. *)
Definition or_else (v : option number) (d : number) : number :=
  match v with
  | Some x => if Qeq_bool x 0 then d else x
  | None => d
  end.

Definition getSafeOutThreshold (radius : number) : number :=
  or_else (table_get SAFE_OUT_TABLE radius) (radius * (125 # 100))%Q.

Definition reliableExit (distance accuracy radius threshold : number) : bool :=
  (* A) Overshoot rule: clearly beyond fence *)
  if Qle_bool threshold distance then true
  (* B) Accuracy-aware margin: good fix with smaller overshoot *)
  else if Qle_bool accuracy ACCURACY_PASS_M
          && Qle_bool (radius + Qmax 25 (accuracy / 2))%Q distance
       then true
       else false.

(** ** Shift-end parsing

    Strings are sequences of ASCII characters; whitespace and letter case
    outside ASCII are not modelled. *)

Definition isWhite (c : ascii) : bool :=
  let n := nat_of_ascii c in
  ((n =? 32) || ((9 <=? n) && (n <=? 13)))%nat.

Definition isDigit (c : ascii) : bool :=
  let n := nat_of_ascii c in ((48 <=? n) && (n <=? 57))%nat.

Definition toLower (c : ascii) : ascii :=
  let n := nat_of_ascii c in
  if ((65 <=? n) && (n <=? 90))%nat then ascii_of_nat (n + 32) else c.

Fixpoint dropWhite (s : list ascii) : list ascii :=
  match s with
  | c :: r => if isWhite c then dropWhite r else s
  | [] => []
  end.

Definition trim (s : string) : string :=
  string_of_list_ascii
    (rev (dropWhite (rev (dropWhite (list_ascii_of_string s))))).

Definition toLowerCase (s : string) : string :=
  string_of_list_ascii (map toLower (list_ascii_of_string s)).

(** [parseInt(ds, 10)] on a string of decimal digits. *)
Definition parseInt (ds : list ascii) : Z :=
  fold_left (fun acc c => acc * 10 + Z.of_nat (nat_of_ascii c - 48)) ds 0.

(** The regular expressions are written as the backtracking matchers they
    denote: alternatives are tried in the engine's order. *)

(** [\d{1,2}], greedy: two digits first, then one. *)
Definition takeDigits12 (s : list ascii) : list (list ascii * list ascii) :=
  match s with
  | a :: r =>
      if isDigit a then
        match r with
        | b :: r' => if isDigit b then [([a; b], r'); ([a], r)] else [([a], r)]
        | [] => [([a], [])]
        end
      else []
  | [] => []
  end.

(** [\d{2}]. *)
Definition takeDigits2 (s : list ascii) : option (list ascii * list ascii) :=
  match s with
  | a :: b :: r => if isDigit a && isDigit b then Some ([a; b], r) else None
  | _ => None
  end.

Definition takeChar (c : ascii) (s : list ascii) : option (list ascii) :=
  match s with
  | a :: r => if Ascii.eqb a c then Some r else None
  | [] => None
  end.

Definition atEnd (s : list ascii) : bool :=
  match s with [] => true | _ => false end.

Fixpoint firstSome {A B} (f : A -> option B) (l : list A) : option B :=
  match l with
  | [] => None
  | x :: r => match f x with Some y => Some y | None => firstSome f r end
  end.

(** [/^(\d{1,2}):(\d{2})(?::\d{2})?$/]: the groups [m[1]], [m[2]]. *)
Definition match24h (s : list ascii) : option (list ascii * list ascii) :=
  firstSome
    (fun '(hh, r0) =>
       match takeChar ":" r0 with
       | Some r1 =>
           match takeDigits2 r1 with
           | Some (mm, r2) =>
               let withSeconds :=
                 match takeChar ":" r2 with
                 | Some r3 =>
                     match takeDigits2 r3 with
                     | Some (_, r4) => atEnd r4
                     | None => false
                     end
                 | None => false
                 end in
               if withSeconds || atEnd r2 then Some (hh, mm) else None
           | None => None
           end
       | None => None
       end)
    (takeDigits12 s).

(** [\s*(am|pm)$]: the group [m[3]]. *)
Definition matchMeridiem (s : list ascii) : option string :=
  let r := string_of_list_ascii (dropWhite s) in
  if String.eqb r "am" then Some "am"%string
  else if String.eqb r "pm" then Some "pm"%string
  else None.

(** [/^(\d{1,2})(?::(\d{2}))?\s*(am|pm)$/]: the groups [m[1]], [m[2]] (which
    may be undefined) and [m[3]]. *)
Definition match12h (s : list ascii)
  : option (list ascii * option (list ascii) * string) :=
  firstSome
    (fun '(hh, r0) =>
       let withMinutes :=
         match takeChar ":" r0 with
         | Some r1 =>
             match takeDigits2 r1 with
             | Some (mm, r2) =>
                 option_map (fun mer => (hh, Some mm, mer)) (matchMeridiem r2)
             | None => None
             end
         | None => None
         end in
       match withMinutes with
       | Some m => Some m
       | None => option_map (fun mer => (hh, None, mer)) (matchMeridiem r0)
       end)
    (takeDigits12 s).

Definition parseShiftEnd (shiftEnd : string) : option (Z * Z) :=
  let s := list_ascii_of_string (toLowerCase (trim shiftEnd)) in
  (* 24h format: HH:MM or HH:MM:SS *)
  match match24h s with
  | Some (m1, m2) =>
      let hour := parseInt m1 in
      let minute := parseInt m2 in
      if (0 <=? hour) && (hour <=? 23) && (0 <=? minute) && (minute <=? 59)
      then Some (hour, minute) else None
  | None =>
      (* 12h format: h[:mm] AM/PM *)
      match match12h s with
      | Some (m1, m2, meridiem) =>
          let hour := parseInt m1 in
          let minute := match m2 with Some d => parseInt d | None => 0 end in
          if (hour <? 1) || (12 <? hour) || (minute <? 0) || (59 <? minute)
          then None
          else
            let hour :=
              if String.eqb meridiem "pm" && negb (hour =? 12)
              then hour + 12 else hour in
            let hour :=
              if String.eqb meridiem "am" && (hour =? 12) then 0 else hour in
            Some (hour, minute)
      | None => None
      end
  end.

(** [String(n).padStart(2, "0")] for a non-negative integer. *)
Definition padStart2 (n : Z) : string :=
  let s := NilZero.string_of_uint (N.to_uint (Z.to_N n)) in
  if (String.length s <? 2)%nat
  then string_of_list_ascii (repeat "0"%char (2 - String.length s)) ++ s
  else s.

Definition normalizeShiftEnd (p : Z * Z) : string :=
  (padStart2 (fst p) ++ ":" ++ padStart2 (snd p))%string.

(** ** The last-hour window *)

Section Handler.

(** Offset of the server's local time from UTC, in milliseconds (constant
    over the day: daylight-saving changes are not modelled). *)
Variable tz : Z.

(** The great-circle distance uses [Math.sin], [Math.cos] and
    [Math.atan2]; it is a parameter of the handler. *)
Variable calculateDistance : number -> number -> number -> number -> number.

(** Local time of day of an instant, in milliseconds since local midnight. *)
Definition timeOfDay (d : Z) : Z := (d + tz) mod MS_PER_DAY.

(** [d.setHours(h, m, s, ms)]: same local day, given local time. *)
Definition setHours (d h m s ms : Z) : Z :=
  d - timeOfDay d + (((h * 60 + m) * 60 + s) * 1000 + ms).

Definition checkLastHourWindow (now : Z) (clockInIso : Z) (shiftEnd : string)
  : bool :=
  match parseShiftEnd shiftEnd with
  | None => false
  | Some (hour, minute) =>
      (* shift end datetime for TODAY (current date), not the clock-in date *)
      let shiftEndTime := setHours now hour minute 0 0 in
      (* last hour window start (shift_end - 60 minutes) *)
      let windowStart := shiftEndTime - AUTO_WINDOW_MINUTES * 60 * 1000 in
      (windowStart <=? now) && (now <=? shiftEndTime)
  end.

(** ** The request handler *)

Record LocationPayload := {
  p_worker_id : string;
  p_clock_entry_id : string;
  p_latitude : number;
  p_longitude : number;
  p_accuracy : number;
  p_timestamp : Z
}.

(** The [status] of the JSON answer ([st_invalid_job_data] is the answer
    [{ error: "Invalid job data" }]). *)
Inductive Status :=
| st_not_clocked_in | st_invalid_job_data | st_geofence_disabled
| st_no_shift_end | st_invalid_shift_end | st_outside_window
| st_inside_fence | st_exit_detected.

Record Response := {
  r_status : Status;
  r_http : Z;
  r_distance : option number;
  r_threshold : option number
}.

(** [!x] is false on a number: neither null nor zero. *)
Definition truthy (v : option number) : bool :=
  match v with
  | Some x => negb (Qeq_bool x 0)
  | None => false
  end.

(** The row selected in step 1: the open entry of that worker. *)
Definition findOpenEntry (db : Db) (payload : LocationPayload)
  : option ClockEntry :=
  single (filter (fun ce =>
                    String.eqb (ce_id ce) (p_clock_entry_id payload)
                    && String.eqb (ce_worker_id ce) (p_worker_id payload)
                    && isNull (clock_out ce))
                 (clock_entries db)).

(** The embedded [jobs(...)] resource of a clock entry. *)
Definition jobOf (db : Db) (ce : ClockEntry) : option Job :=
  find (fun j => String.eqb (j_id j) (ce_job_id ce)) (jobs db).

(** Step 2: [!job || !job.latitude || !job.longitude || !job.geofence_radius]
    is false; the three numbers are returned. *)
Definition validJob (job : option Job) : option (Job * number * number * number) :=
  match job with
  | Some j =>
      match j_latitude j, j_longitude j, geofence_radius j with
      | Some lat, Some lng, Some radius =>
          if truthy (Some lat) && truthy (Some lng) && truthy (Some radius)
          then Some (j, lat, lng, radius) else None
      | _, _, _ => None
      end
  | None => None
  end.

Definition fixEvent (payload : LocationPayload) (shiftDate : Z)
    (type : EventType) (distance radius threshold : number) (id : nat)
  : GeofenceEvent :=
  {| ev_id := id;
     ev_worker_id := p_worker_id payload;
     clock_entry_id := p_clock_entry_id payload;
     shift_date := shiftDate;
     event_type := type;
     latitude := p_latitude payload;
     longitude := p_longitude payload;
     accuracy := p_accuracy payload;
     distance_from_center := distance;
     job_radius := radius;
     safe_out_threshold := threshold;
     timestamp := p_timestamp payload;
     resolved_at := None |}.

(** Step 6 for a regular shift: [Some st] is the early answer, [None] lets
    the handler go on to the exit test. *)
Definition windowGate (now : Z) (db : Db) (payload : LocationPayload)
    (clockEntry : ClockEntry) : option (Status * Z) :=
  match single (filter (fun w => String.eqb (w_id w) (p_worker_id payload))
                       (workers db)) with
  | None => Some (st_no_shift_end, 200)
  | Some worker =>
      match shift_end worker with
      | None => Some (st_no_shift_end, 200)
      | Some raw =>
          if String.eqb raw "" then Some (st_no_shift_end, 200)
          else
            let shiftEndRaw := trim raw in
            if String.eqb shiftEndRaw "" then Some (st_no_shift_end, 200)
            else
              match parseShiftEnd shiftEndRaw with
              | None => Some (st_invalid_shift_end, 400)
              | Some parsedShiftEnd =>
                  let normalizedShiftEnd := normalizeShiftEnd parsedShiftEnd in
                  let isInLastHour :=
                    checkLastHourWindow now (clock_in clockEntry)
                                        normalizedShiftEnd in
                  if isInLastHour then None
                  else Some (st_outside_window, 200)
              end
      end
  end.

Definition handler (now : Z) (db : Db) (payload : LocationPayload)
  : Response * Db :=
  (* 1. Validate worker is clocked in *)
  match findOpenEntry db payload with
  | None => ({| r_status := st_not_clocked_in; r_http := 200;
                r_distance := None; r_threshold := None |}, db)
  | Some clockEntry =>
      (* 2. Get job details *)
      match validJob (jobOf db clockEntry) with
      | None => ({| r_status := st_invalid_job_data; r_http := 400;
                    r_distance := None; r_threshold := None |}, db)
      | Some (job, jlat, jlng, radius) =>
          let shiftDate := isoDate (clock_in clockEntry) in
          match geofence_enabled job with
          | Some false =>
              (* 2a. geofence disabled: only log the location *)
              ({| r_status := st_geofence_disabled; r_http := 200;
                  r_distance := None; r_threshold := None |},
               insert_event db
                 (fixEvent payload shiftDate location_fix 0%Q radius 0%Q))
          | _ =>
              (* 3. distance from site center, 4. safe-out threshold *)
              let distance :=
                calculateDistance (p_latitude payload) (p_longitude payload)
                                  jlat jlng in
              let threshold := getSafeOutThreshold radius in
              (* 5. Record location fix event *)
              let db1 :=
                insert_event db
                  (fixEvent payload shiftDate location_fix
                            distance radius threshold) in
              (* 6. overtime OR in last hour window *)
              let gate :=
                if is_overtime clockEntry then None
                else windowGate now db payload clockEntry in
              match gate with
              | Some (st, http) =>
                  ({| r_status := st; r_http := http;
                      r_distance :=
                        match st with
                        | st_outside_window => Some distance
                        | _ => None
                        end;
                      r_threshold :=
                        match st with
                        | st_outside_window => Some threshold
                        | _ => None
                        end |}, db1)
              | None =>
                  (* 7. Check if reliable exit *)
                  let isExit :=
                    reliableExit distance (p_accuracy payload) radius
                                 threshold in
                  if negb isExit then
                    ({| r_status := st_inside_fence; r_http := 200;
                        r_distance := Some distance;
                        r_threshold := Some threshold |}, db1)
                  else
                    (* 8. Record exit detected *)
                    ({| r_status := st_exit_detected; r_http := 200;
                        r_distance := Some distance;
                        r_threshold := Some threshold |},
                     insert_event db1
                       (fixEvent payload shiftDate exit_detected
                                 distance radius threshold))
              end
          end
      end
  end.

End Handler.

(** ** A concrete scenario

    One worker with shift end 17:00, clocked in at a site of radius 100 m,
    on a server one hour ahead of UTC. *)

Definition demoTz : Z := 60 * 60 * 1000.

Definition demoJob : Job :=
  {| j_id := "job-1"; j_latitude := Some (515 # 10); j_longitude := Some (-1 # 10);
     geofence_radius := Some 100%Q; geofence_enabled := Some true |}.

Definition demoWorker : Worker :=
  {| w_id := "worker-1"; shift_end := Some "17:00"%string |}.

(** Local midnight of the demo day, as an instant. *)
Definition demoMidnight : Z := 20000 * MS_PER_DAY - demoTz.

Definition demoEntry : ClockEntry :=
  {| ce_id := "entry-1"; ce_worker_id := "worker-1"; ce_job_id := "job-1";
     clock_in := demoMidnight + 9 * MS_PER_HOUR; clock_out := None;
     clock_out_lat := None; clock_out_lng := None;
     is_overtime := false; auto_clocked_out := false;
     auto_clockout_type := None; auto_clockout_reason := None;
     total_hours := None; geofence_exit_data := None; status := None |}.

Definition demoDb : Db :=
  {| clock_entries := [demoEntry]; geofence_events := [];
     notifications := []; notification_log := [];
     jobs := [demoJob]; workers := [demoWorker]; next_event_id := 1 |}.

Definition demoPayload (t : Z) : LocationPayload :=
  {| p_worker_id := "worker-1"; p_clock_entry_id := "entry-1";
     p_latitude := (5151 # 1000); p_longitude := (-1 # 10);
     p_accuracy := 10%Q; p_timestamp := t |}.

(** A sample 160 m from the site center, and one 60 m from it. *)
Definition demoFar (_ _ _ _ : number) : number := 160%Q.
Definition demoNear (_ _ _ _ : number) : number := 60%Q.

Definition demo1530 : Z := demoMidnight + (15 * 60 + 30) * 60 * 1000.
Definition demo1630 : Z := demoMidnight + (16 * 60 + 30) * 60 * 1000.

(** ** Properties of the geofence math *)

(** C7. [reliableExit] answers [true] exactly when the overshoot rule
    ([distance >= threshold]) or the accuracy-aware margin rule
    ([accuracy <= 50] and [distance >= radius + max(25, accuracy / 2)])
    applies, and [false] in every other case. *)
Theorem reliableExit_iff (distance accuracy radius threshold : number) :
  let rule :=
    (threshold <= distance
     \/ (accuracy <= 50 /\ radius + Qmax 25 (accuracy / 2) <= distance))%Q in
  (reliableExit distance accuracy radius threshold = true <-> rule)
  /\ (reliableExit distance accuracy radius threshold = false <-> ~ rule).
Proof.
  intro rule.
  assert (Ht : reliableExit distance accuracy radius threshold = true <-> rule).
  { unfold reliableExit, rule, ACCURACY_PASS_M.
    destruct (Qle_bool threshold distance) eqn:EA.
    - apply Qle_bool_iff in EA. tauto.
    - apply Qle_bool_false_iff in EA.
      destruct (Qle_bool accuracy 50) eqn:EB; simpl.
      + apply Qle_bool_iff in EB.
        destruct (Qle_bool (radius + Qmax 25 (accuracy / 2)) distance) eqn:EC.
        * apply Qle_bool_iff in EC. tauto.
        * apply Qle_bool_false_iff in EC. split; [discriminate|].
          intros [H | [_ H]]; exfalso.
          -- exact (Qlt_not_le _ _ EA H).
          -- exact (Qlt_not_le _ _ EC H).
      + apply Qle_bool_false_iff in EB. split; [discriminate|].
        intros [H | [H _]]; exfalso.
        * exact (Qlt_not_le _ _ EA H).
        * exact (Qlt_not_le _ _ EB H). }
  split; [exact Ht|].
  rewrite <- Ht.
  destruct (reliableExit distance accuracy radius threshold);
    split; intro H; try reflexivity; try discriminate; try congruence.
Qed.

Lemma reliableExit_rule_false (distance accuracy radius threshold : number) :
  reliableExit distance accuracy radius threshold = false <->
  ~ (threshold <= distance
     \/ (accuracy <= 50 /\ radius + Qmax 25 (accuracy / 2) <= distance))%Q.
Proof.
  unfold reliableExit, ACCURACY_PASS_M.
  destruct (Qle_bool threshold distance) eqn:EA.
  - apply Qle_bool_iff in EA. split; [discriminate | tauto].
  - apply Qle_bool_false_iff in EA.
    destruct (Qle_bool accuracy 50) eqn:EB; simpl.
    + destruct (Qle_bool (radius + Qmax 25 (accuracy / 2)) distance) eqn:EC.
      * apply Qle_bool_iff in EB, EC. split; [discriminate | tauto].
      * apply Qle_bool_false_iff in EC. split; [|reflexivity].
        intros _ [H | [_ H]].
        -- exact (Qlt_not_le _ _ EA H).
        -- exact (Qlt_not_le _ _ EC H).
    + apply Qle_bool_false_iff in EB. split; [|reflexivity].
      intros _ [H | [H _]].
      * exact (Qlt_not_le _ _ EA H).
      * exact (Qlt_not_le _ _ EB H).
Qed.

Lemma table_get_hit (k v r : number) (rest : list (number * number)) :
  (r == k)%Q -> table_get ((k, v) :: rest) r = Some v.
Proof.
  intro H. simpl.
  destruct (Qeq_bool k r) eqn:E; [reflexivity|].
  apply Qeq_bool_neq in E. exfalso. apply E. symmetry. exact H.
Qed.

Lemma table_get_miss (k v r : number) (rest : list (number * number)) :
  ~ (r == k)%Q -> table_get ((k, v) :: rest) r = table_get rest r.
Proof.
  intro H. simpl.
  destruct (Qeq_bool k r) eqn:E; [|reflexivity].
  apply Qeq_bool_eq in E. exfalso. apply H. symmetry. exact E.
Qed.

(** C8. On the radii of the lookup table [getSafeOutThreshold] returns the
    tabulated threshold, and on every other positive radius [r] it returns
    [1.25 * r]. *)
Theorem getSafeOutThreshold_table (r : number) :
  ((r == 50 -> getSafeOutThreshold r == 90)
   /\ (r == 100 -> getSafeOutThreshold r == 150)
   /\ (r == 200 -> getSafeOutThreshold r == 260)
   /\ (r == 300 -> getSafeOutThreshold r == 380)
   /\ (r == 400 -> getSafeOutThreshold r == 500)
   /\ (r == 500 -> getSafeOutThreshold r == 625)
   /\ (0 < r ->
       ~ r == 50 -> ~ r == 100 -> ~ r == 200 ->
       ~ r == 300 -> ~ r == 400 -> ~ r == 500 ->
       getSafeOutThreshold r == (125 # 100) * r))%Q.
Proof.
  unfold getSafeOutThreshold, SAFE_OUT_TABLE.
  repeat split; intros.
  7: { repeat (rewrite table_get_miss by assumption). simpl. ring. }
  all: repeat (rewrite table_get_miss
                 by (intro Hk;
                     match goal with H : (_ == _)%Q |- _ =>
                       rewrite H in Hk; discriminate Hk end)).
  all: rewrite table_get_hit by assumption; reflexivity.
Qed.

Lemma getSafeOutThreshold_table_witness :
  (getSafeOutThreshold 300 == 380 /\ getSafeOutThreshold 120 == 150)%Q.
Proof.
  split.
  - apply (getSafeOutThreshold_table 300). reflexivity.
  - destruct (getSafeOutThreshold_table 120) as (_ & _ & _ & _ & _ & _ & H).
    rewrite H; solve [reflexivity | intro H'; discriminate H'].
Defined.

(** The safe-out threshold of a positive radius lies strictly outside the
    fence. *)
Lemma threshold_beyond_radius (r : number) :
  (0 < r -> r < getSafeOutThreshold r)%Q.
Proof.
  intro Hr. unfold getSafeOutThreshold, SAFE_OUT_TABLE, table_get.
  repeat match goal with
         | |- context [Qeq_bool ?k r] =>
             destruct (Qeq_bool k r) eqn:?E;
             [ apply Qeq_bool_eq in E; simpl or_else; rewrite <- E;
               reflexivity | clear E ]
         end.
  simpl. lra.
Qed.

Lemma reliableExit_inside (distance acc r : number) :
  (0 < r)%Q -> (distance <= r)%Q ->
  reliableExit distance acc r (getSafeOutThreshold r) = false.
Proof.
  intros Hr Hd.
  apply (proj2 (reliableExit_rule_false distance acc r _)).
  intros [H | [_ H]].
  - pose proof (threshold_beyond_radius r Hr). lra.
  - pose proof (Q.le_max_l 25 (acc / 2)). lra.
Qed.

(** ** Properties of the shift-end parser and of the window *)

Lemma parseInt_acc_nonneg (ds : list ascii) (acc : Z) :
  0 <= acc ->
  0 <= fold_left (fun a c => a * 10 + Z.of_nat (nat_of_ascii c - 48)) ds acc.
Proof.
  revert acc. induction ds as [|c ds IH]; simpl; intros acc H; [exact H|].
  apply IH. lia.
Qed.

Lemma parseInt_nonneg (ds : list ascii) : 0 <= parseInt ds.
Proof. apply parseInt_acc_nonneg. lia. Qed.

(** A parsed shift end is a time of day. *)
Lemma parseShiftEnd_range (s : string) (h m : Z) :
  parseShiftEnd s = Some (h, m) -> 0 <= h <= 23 /\ 0 <= m <= 59.
Proof.
  unfold parseShiftEnd.
  destruct (match24h _) as [[m1 m2]|].
  - destruct (_ && _) eqn:E; intro H; inversion H; subst; clear H.
    repeat rewrite andb_true_iff in E. lia.
  - destruct (match12h _) as [[[m1 m2] mer]|]; [|discriminate].
    pose proof (parseInt_nonneg m1) as H1.
    set (hour := parseInt m1) in *.
    set (minute := match m2 with Some d => parseInt d | None => 0 end).
    destruct (_ || _) eqn:E; [discriminate|].
    repeat rewrite orb_false_iff in E.
    intro H; inversion H; subst; clear H.
    destruct (String.eqb mer "pm" && negb (hour =? 12)) eqn:Epm.
    + apply andb_true_iff in Epm. destruct Epm as [_ Epm].
      apply negb_true_iff in Epm.
      destruct (String.eqb mer "am" && (hour + 12 =? 12)) eqn:Eam; lia.
    + destruct (String.eqb mer "am" && (hour =? 12)) eqn:Eam; lia.
Qed.

Lemma normalize_roundtrip_table :
  forallb
    (fun h =>
       forallb
         (fun m =>
            match parseShiftEnd
                    (normalizeShiftEnd (Z.of_nat h, Z.of_nat m)) with
            | Some (h', m') => (h' =? Z.of_nat h) && (m' =? Z.of_nat m)
            | None => false
            end)
         (seq 0 60))
    (seq 0 24) = true.
Proof. vm_compute. reflexivity. Qed.

(** Re-parsing the normalised ["HH:MM"] text gives the parsed time back. *)
Lemma normalize_roundtrip (h m : Z) :
  0 <= h <= 23 -> 0 <= m <= 59 ->
  parseShiftEnd (normalizeShiftEnd (h, m)) = Some (h, m).
Proof.
  intros Hh Hm.
  pose proof normalize_roundtrip_table as T.
  rewrite forallb_forall in T.
  specialize (T (Z.to_nat h)). rewrite in_seq in T.
  assert (T' := T ltac:(lia)). clear T.
  rewrite forallb_forall in T'.
  specialize (T' (Z.to_nat m)). rewrite in_seq in T'.
  assert (T := T' ltac:(lia)). clear T'.
  rewrite !Z2Nat.id in T by lia.
  destruct (parseShiftEnd _) as [[h' m']|]; [|discriminate].
  apply andb_true_iff in T. destruct T as [T1 T2].
  apply Z.eqb_eq in T1, T2. subst. reflexivity.
Qed.

Section HandlerFacts.

Variable tz : Z.
Variable calculateDistance : number -> number -> number -> number -> number.

(** The window test of a parsed shift end [h:m], as the handler runs it. *)
Definition inLastHour (now h m : Z) : Prop :=
  setHours tz now h m 0 0 - 60 * 60 * 1000 <= now <= setHours tz now h m 0 0.

Lemma checkLastHourWindow_normalized (now clockIn h m : Z) :
  0 <= h <= 23 -> 0 <= m <= 59 ->
  checkLastHourWindow tz now clockIn (normalizeShiftEnd (h, m)) = true
  <-> inLastHour now h m.
Proof.
  intros Hh Hm. unfold checkLastHourWindow, inLastHour.
  rewrite normalize_roundtrip by assumption.
  unfold AUTO_WINDOW_MINUTES.
  rewrite andb_true_iff, !Z.leb_le. lia.
Qed.

Lemma trim_empty_unparsed (raw : string) :
  String.eqb raw "" = true \/ String.eqb (trim raw) "" = true ->
  parseShiftEnd (trim raw) = None.
Proof.
  intros [H | H]; apply String.eqb_eq in H; rewrite H; reflexivity.
Qed.

(** The gate of a regular shift lets the sample through exactly when the
    worker's shift end parses and the clock is inside the last hour. *)
Lemma windowGate_None (now : Z) (db : Db) (payload : LocationPayload)
    (ce : ClockEntry) :
  windowGate tz now db payload ce = None <->
  exists worker raw h m,
    single (filter (fun w => String.eqb (w_id w) (p_worker_id payload))
                   (workers db)) = Some worker
    /\ shift_end worker = Some raw
    /\ parseShiftEnd (trim raw) = Some (h, m)
    /\ inLastHour now h m.
Proof.
  unfold windowGate.
  destruct (single _) as [worker|]; [|split; [discriminate|]].
  2: { intros (w & raw & h & m & H & _). discriminate H. }
  destruct (shift_end worker) as [raw|] eqn:ES; [|split; [discriminate|]].
  2: { intros (w & raw & h & m & H1 & H2 & _).
       inversion H1; subst. congruence. }
  destruct (String.eqb raw "") eqn:E1.
  { split; [discriminate|].
    intros (w & raw' & h & m & H1 & H2 & H3 & _).
    inversion H1; subst; rewrite ES in H2; inversion H2; subst.
    rewrite trim_empty_unparsed in H3 by (now left). discriminate H3. }
  destruct (String.eqb (trim raw) "") eqn:E2.
  { split; [discriminate|].
    intros (w & raw' & h & m & H1 & H2 & H3 & _).
    inversion H1; subst; rewrite ES in H2; inversion H2; subst.
    rewrite trim_empty_unparsed in H3 by (now right). discriminate H3. }
  destruct (parseShiftEnd (trim raw)) as [[h m]|] eqn:EP.
  2: { split; [discriminate|].
       intros (w & raw' & h & m & H1 & H2 & H3 & _).
       inversion H1; subst; rewrite ES in H2; inversion H2; subst. congruence. }
  destruct (parseShiftEnd_range _ _ _ EP) as [Hh Hm].
  pose proof (checkLastHourWindow_normalized now (clock_in ce) h m Hh Hm) as W.
  destruct (checkLastHourWindow _ _ _ _).
  - split; [intros _|reflexivity].
    exists worker, raw, h, m.
    split; [reflexivity|]. split; [exact ES|]. split; [exact EP|].
    apply W. reflexivity.
  - split; [discriminate|].
    intros (w & raw' & h' & m' & H1 & H2 & H3 & H4).
    inversion H1; subst; rewrite ES in H2; inversion H2; subst.
    rewrite EP in H3. inversion H3; subst.
    apply W in H4. discriminate H4.
Qed.

Lemma windowGate_outside (now : Z) (db : Db) (payload : LocationPayload)
    (ce : ClockEntry) (worker : Worker) (raw : string) (h m : Z) :
  single (filter (fun w => String.eqb (w_id w) (p_worker_id payload))
                 (workers db)) = Some worker ->
  shift_end worker = Some raw ->
  parseShiftEnd (trim raw) = Some (h, m) ->
  ~ inLastHour now h m ->
  windowGate tz now db payload ce = Some (st_outside_window, 200).
Proof.
  intros H1 H2 H3 H4. unfold windowGate. rewrite H1, H2.
  destruct (String.eqb raw "") eqn:E1.
  { rewrite trim_empty_unparsed in H3 by (now left). discriminate H3. }
  destruct (String.eqb (trim raw) "") eqn:E2.
  { rewrite trim_empty_unparsed in H3 by (now right). discriminate H3. }
  rewrite H3.
  destruct (parseShiftEnd_range _ _ _ H3) as [Hh Hm].
  pose proof (checkLastHourWindow_normalized now (clock_in ce) h m Hh Hm) as W.
  destruct (checkLastHourWindow _ _ _ _); [|reflexivity].
  exfalso. apply H4, W. reflexivity.
Qed.

Lemma windowGate_status (now : Z) (db : Db) (payload : LocationPayload)
    (ce : ClockEntry) (st : Status) (http : Z) :
  windowGate tz now db payload ce = Some (st, http) ->
  st = st_no_shift_end \/ st = st_invalid_shift_end \/ st = st_outside_window.
Proof.
  unfold windowGate.
  repeat match goal with
         | |- context [match ?x with _ => _ end] => destruct x
         end;
    intro H; inversion H; subst; tauto.
Qed.

(** What the handler does once the session, the job and the enabled
    geofence are established (steps 3 to 8). *)
Lemma handler_run (now : Z) (db : Db) (payload : LocationPayload)
    (ce : ClockEntry) (job : Job) (lat lng radius : number) :
  findOpenEntry db payload = Some ce ->
  validJob (jobOf db ce) = Some (job, lat, lng, radius) ->
  geofence_enabled job <> Some false ->
  let distance :=
    calculateDistance (p_latitude payload) (p_longitude payload) lat lng in
  let threshold := getSafeOutThreshold radius in
  let shiftDate := isoDate (clock_in ce) in
  let db1 :=
    insert_event db
      (fixEvent payload shiftDate location_fix distance radius threshold) in
  let out := handler tz calculateDistance now db payload in
  match (if is_overtime ce then None else windowGate tz now db payload ce) with
  | Some (st, _) => r_status (fst out) = st /\ snd out = db1
  | None =>
      if reliableExit distance (p_accuracy payload) radius threshold
      then r_status (fst out) = st_exit_detected
           /\ snd out =
              insert_event db1
                (fixEvent payload shiftDate exit_detected
                          distance radius threshold)
      else r_status (fst out) = st_inside_fence /\ snd out = db1
  end.
Proof.
  intros He Hj Hg. unfold handler. rewrite He, Hj.
  destruct (geofence_enabled job) as [[|]|]; try (exfalso; now apply Hg);
    cbv zeta;
    destruct (if is_overtime ce then None else windowGate tz now db payload ce)
      as [[st http]|];
    try (split; reflexivity);
    destruct (reliableExit _ _ _ _); simpl; split; reflexivity.
Qed.

(** C6. For a regular session whose worker's shift end parses to 17:00, a
    sample processed at local time 15:30 is answered [outside_window] and
    only its [location_fix] row is written (no exit test, no
    [exit_detected] row); a sample processed at 16:30 is answered by the
    reliable-exit test.  In general, for a regular session the exit test is
    reached exactly when the worker's shift end parses to [h:m] and the
    clock lies in [[h:m - 60 minutes, h:m]] of the current day. *)
Theorem window_gate_regular_session (now : Z) (db : Db)
    (payload : LocationPayload) (ce : ClockEntry) (job : Job)
    (lat lng radius : number) :
  findOpenEntry db payload = Some ce ->
  is_overtime ce = false ->
  validJob (jobOf db ce) = Some (job, lat, lng, radius) ->
  geofence_enabled job <> Some false ->
  let distance :=
    calculateDistance (p_latitude payload) (p_longitude payload) lat lng in
  let threshold := getSafeOutThreshold radius in
  let db1 :=
    insert_event db
      (fixEvent payload (isoDate (clock_in ce)) location_fix
                distance radius threshold) in
  let out := handler tz calculateDistance now db payload in
  let theWorker :=
    single (filter (fun w => String.eqb (w_id w) (p_worker_id payload))
                   (workers db)) in
  (forall worker raw,
      theWorker = Some worker -> shift_end worker = Some raw ->
      parseShiftEnd (trim raw) = Some (17, 0) ->
      (timeOfDay tz now = (15 * 60 + 30) * 60 * 1000 ->
       r_status (fst out) = st_outside_window /\ snd out = db1)
      /\ (timeOfDay tz now = (16 * 60 + 30) * 60 * 1000 ->
          r_status (fst out) =
          if reliableExit distance (p_accuracy payload) radius threshold
          then st_exit_detected else st_inside_fence))
  /\ (r_status (fst out) = st_inside_fence
      \/ r_status (fst out) = st_exit_detected
      <-> exists worker raw h m,
          theWorker = Some worker
          /\ shift_end worker = Some raw
          /\ parseShiftEnd (trim raw) = Some (h, m)
          /\ inLastHour now h m).
Proof.
  intros He Hot Hj Hg distance threshold db1 out theWorker.
  pose proof (handler_run now db payload ce job lat lng radius He Hj Hg) as R.
  cbv zeta in R. rewrite Hot in R.
  fold distance threshold db1 out in R.
  split.
  - intros worker raw Hw Hs HP.
    split; intro Ht.
    + rewrite (windowGate_outside now db payload ce worker raw 17 0
                 Hw Hs HP) in R; [exact R|].
      unfold inLastHour, setHours. rewrite Ht. lia.
    + assert (G : windowGate tz now db payload ce = None).
      { apply windowGate_None. exists worker, raw, 17, 0.
        repeat split; try assumption;
          unfold setHours; rewrite Ht; lia. }
      rewrite G in R.
      destruct (reliableExit _ _ _ _); apply R.
  - unfold theWorker. rewrite <- (windowGate_None now db payload ce).
    destruct (windowGate tz now db payload ce) as [[st http]|] eqn:G.
    + destruct R as [R _].
      apply windowGate_status in G.
      split; [|discriminate].
      intros [H | H]; rewrite H in R; rewrite <- R in G;
        destruct G as [G | [G | G]]; discriminate G.
    + split; [reflexivity|]. intros _.
      destruct (reliableExit _ _ _ _); destruct R as [R _]; rewrite R; tauto.
Qed.

Lemma fixEvent_type (payload : LocationPayload) (d : Z) (t : EventType)
    (x y z : number) (id : nat) :
  event_type (fixEvent payload d t x y z id) = t.
Proof. reflexivity. Qed.

Lemma exits_after_fix (db : Db) (mk : nat -> GeofenceEvent) :
  event_type (mk (next_event_id db)) = location_fix ->
  filter (has_type exit_detected) (geofence_events (insert_event db mk))
  = filter (has_type exit_detected) (geofence_events db).
Proof.
  intro H. simpl. rewrite filter_app. simpl. unfold has_type at 2.
  rewrite H. simpl. apply app_nil_r.
Qed.

(** C10. A fix at or inside the boundary is never an exit: with a positive
    radius [r] and the threshold [getSafeOutThreshold r], [reliableExit] is
    false whenever [distance <= r], whatever the accuracy; hence the handler
    never answers [exit_detected] and writes no [exit_detected] row for a
    sample whose distance from the site center is at most the radius. *)
Theorem inside_fence_never_exit :
  (forall distance acc r : number,
      (0 < r)%Q -> (distance <= r)%Q ->
      reliableExit distance acc r (getSafeOutThreshold r) = false)
  /\ (forall (now : Z) (db : Db) (payload : LocationPayload)
             (ce : ClockEntry) (job : Job) (lat lng radius : number),
         findOpenEntry db payload = Some ce ->
         validJob (jobOf db ce) = Some (job, lat, lng, radius) ->
         (0 < radius)%Q ->
         (calculateDistance (p_latitude payload) (p_longitude payload)
                            lat lng <= radius)%Q ->
         let out := handler tz calculateDistance now db payload in
         r_status (fst out) <> st_exit_detected
         /\ filter (has_type exit_detected) (geofence_events (snd out))
            = filter (has_type exit_detected) (geofence_events db)).
Proof.
  split; [exact reliableExit_inside|].
  intros now db payload ce job lat lng radius He Hj Hr Hd out.
  destruct (geofence_enabled job) as [[|]|] eqn:Hg.
  2: { subst out. unfold handler. rewrite He, Hj, Hg. simpl fst. simpl snd.
       split; [discriminate|]. apply exits_after_fix. reflexivity. }
  all: assert (Hg' : geofence_enabled job <> Some false) by (rewrite Hg; discriminate).
  all: pose proof (handler_run now db payload ce job lat lng radius He Hj Hg') as R.
  all: cbv zeta in R; fold out in R.
  all: rewrite (reliableExit_inside _ (p_accuracy payload) radius Hr Hd) in R.
  all: revert R; destruct (is_overtime ce); intro R.
  all: try (destruct (windowGate tz now db payload ce) as [[st http]|] eqn:G).
  all: destruct R as [R1 R2]; rewrite R1, R2.
  all: split; [|apply exits_after_fix; reflexivity].
  all: try discriminate.
  all: apply windowGate_status in G; intro Hst; rewrite Hst in G;
       destruct G as [G | [G | G]]; discriminate G.
Qed.

End HandlerFacts.

Lemma window_gate_regular_session_witness :
  r_status (fst (handler demoTz demoFar demo1530 demoDb (demoPayload demo1530)))
  = st_outside_window
  /\ r_status (fst (handler demoTz demoFar demo1630 demoDb
                            (demoPayload demo1630)))
     = st_exit_detected.
Proof.
  assert (Hg : geofence_enabled demoJob <> Some false) by discriminate.
  split.
  - exact (proj1 (proj1 (proj1
             (window_gate_regular_session demoTz demoFar demo1530 demoDb
                (demoPayload demo1530) demoEntry demoJob
                (515 # 10) (-1 # 10) 100%Q
                eq_refl eq_refl eq_refl Hg)
             demoWorker "17:00"%string eq_refl eq_refl eq_refl) eq_refl)).
  - exact (proj2 (proj1
             (window_gate_regular_session demoTz demoFar demo1630 demoDb
                (demoPayload demo1630) demoEntry demoJob
                (515 # 10) (-1 # 10) 100%Q
                eq_refl eq_refl eq_refl Hg)
             demoWorker "17:00"%string eq_refl eq_refl eq_refl) eq_refl).
Defined.

Lemma inside_fence_never_exit_witness :
  reliableExit 100 5 100 (getSafeOutThreshold 100) = false
  /\ r_status (fst (handler demoTz demoNear demo1630 demoDb
                            (demoPayload demo1630)))
     <> st_exit_detected.
Proof.
  split.
  - apply (proj1 (inside_fence_never_exit demoTz demoNear));
      unfold Qlt, Qle; simpl; lia.
  - apply (proj2 (inside_fence_never_exit demoTz demoNear)
             demo1630 demoDb (demoPayload demo1630) demoEntry demoJob
             (515 # 10) (-1 # 10) 100%Q eq_refl eq_refl);
      unfold Qlt, Qle, demoNear; simpl; lia.
Defined.

End TrackLocation.

(** * check-grace-expiry *)

Module CheckGraceExpiry.

(** Timing thresholds *)
Definition GRACE_MINUTES : Z := 4.
Definition RACE_BUFFER_SEC : Z := 60.
Definition AUTO_DELAY_MS : Z := (GRACE_MINUTES * 60 + RACE_BUFFER_SEC) * 1000.
Definition ACCURACY_PASS_M : number := 50%Q.

Inductive SweepStatus := no_pending_exits | processed (count : nat).

(** [x || y] on numbers: [0] is falsy. *)
Definition num_or (x y : number) : number := if Qeq_bool x 0 then y else x.

Definition sameEntry (exit e : GeofenceEvent) : bool :=
  String.eqb (clock_entry_id e) (clock_entry_id exit).

(** Step 2: the [re_entry] and [exit_confirmed] rows of the exit's session. *)
Definition existingEvents (db : Db) (exit : GeofenceEvent)
  : list GeofenceEvent :=
  filter (fun e => sameEntry exit e
                   && (has_type re_entry e || has_type exit_confirmed e))
         (geofence_events db).

(** Step 2b: the [location_fix] rows of the session after the exit. *)
Definition recentFixes (db : Db) (exit : GeofenceEvent) : list GeofenceEvent :=
  filter (fun e => sameEntry exit e && has_type location_fix e
                   && (timestamp exit <? timestamp e))
         (geofence_events db).

(** The fix shows the worker back inside with reliable accuracy. *)
Definition backInside (f : GeofenceEvent) : bool :=
  Qle_bool (distance_from_center f) (job_radius f)
  && Qle_bool (accuracy f) ACCURACY_PASS_M.

(** [delete().eq("id", exit.id)] on [geofence_events]. *)
Definition deleteExit (db : Db) (exit : GeofenceEvent) : Db :=
  set_geofence_events db
    (delete_where (fun e => Nat.eqb (ev_id e) (ev_id exit))
                  (geofence_events db)).

Definition reEntryEvent (now : Z) (exit : GeofenceEvent)
    (mostRecentFix : option GeofenceEvent) (id : nat) : GeofenceEvent :=
  {| ev_id := id;
     ev_worker_id := ev_worker_id exit;
     clock_entry_id := clock_entry_id exit;
     shift_date := isoDate now;
     event_type := re_entry;
     latitude := latitude exit;
     longitude := longitude exit;
     accuracy :=
       match mostRecentFix with
       | Some f => num_or (accuracy f) (accuracy exit)
       | None => accuracy exit
       end;
     distance_from_center :=
       match mostRecentFix with
       | Some f => num_or (distance_from_center f) (distance_from_center exit)
       | None => distance_from_center exit
       end;
     job_radius := job_radius exit;
     safe_out_threshold := safe_out_threshold exit;
     timestamp := now;
     resolved_at := None |}.

Definition exitConfirmedEvent (exit : GeofenceEvent) (clockEntry : ClockEntry)
    (clockOutTime : Z) (id : nat) : GeofenceEvent :=
  {| ev_id := id;
     ev_worker_id := ev_worker_id exit;
     clock_entry_id := clock_entry_id exit;
     shift_date := isoDate (clock_in clockEntry);
     event_type := exit_confirmed;
     latitude := latitude exit;
     longitude := longitude exit;
     accuracy := accuracy exit;
     distance_from_center := distance_from_center exit;
     job_radius := job_radius exit;
     safe_out_threshold := safe_out_threshold exit;
     timestamp := clockOutTime;
     resolved_at := None |}.

(** The columns written by the auto clock-out [update]. *)
Definition clockOutUpdate (exit : GeofenceEvent) (clockOutTime : Z)
    (totalHours : number) (ce : ClockEntry) : ClockEntry :=
  {| ce_id := ce_id ce;
     ce_worker_id := ce_worker_id ce;
     ce_job_id := ce_job_id ce;
     clock_in := clock_in ce;
     clock_out := Some clockOutTime;
     clock_out_lat := Some (latitude exit);
     clock_out_lng := Some (longitude exit);
     is_overtime := is_overtime ce;
     auto_clocked_out := true;
     auto_clockout_type := Some "geofence"%string;
     auto_clockout_reason := auto_clockout_reason ce;
     total_hours := Some totalHours;
     geofence_exit_data :=
       Some {| xd_distance := distance_from_center exit;
               xd_accuracy := accuracy exit;
               xd_threshold := safe_out_threshold exit;
               xd_radius := job_radius exit |};
     status := status ce |}.

(** The filter [.eq("id", exit.clock_entry_id)] on [clock_entries]. *)
Definition entryOf (exit : GeofenceEvent) (ce : ClockEntry) : bool :=
  String.eqb (ce_id ce) (clock_entry_id exit).

Definition notificationFor (now : Z) (exit : GeofenceEvent)
    (clockOutTime : Z) : Notification :=
  {| n_worker_id := ev_worker_id exit;
     n_title := "Auto Clocked-Out - Left Job Site";
     n_type := "geofence_auto_clockout";
     dedupe_key :=
       WorkerDateType (ev_worker_id exit) (isoDate clockOutTime)
                      "auto_clockout_geofence";
     created_at := now |}.

(** The body of the loop [for (const exit of exits)]. *)
Definition processExit (now : Z) (db : Db) (exit : GeofenceEvent) : Db :=
  (* 2. already re-entered or confirmed *)
  match existingEvents db exit with
  | _ :: _ => deleteExit db exit
  | [] =>
      (* 2b. location_fix events after the exit (worker re-entered) *)
      if existsb backInside (recentFixes db exit) then
        let mostRecentFix := find backInside (recentFixes db exit) in
        deleteExit (insert_event db (reEntryEvent now exit mostRecentFix)) exit
      else
        (* 3. manual clock-out happened, or this is an OT entry *)
        match single (filter (entryOf exit) (clock_entries db)) with
        | None => db
        | Some clockEntry =>
            if is_overtime clockEntry then db
            else if negb (isNull (clock_out clockEntry))
                    && negb (auto_clocked_out clockEntry) then db
            else
              (* 4. Auto-clock-out the worker *)
              let clockOutTime := timestamp exit in
              let totalHours := hoursBetween clockOutTime (clock_in clockEntry) in
              let db1 :=
                set_clock_entries db
                  (update_where
                     (fun ce => entryOf exit ce && isNull (clock_out ce))
                     (clockOutUpdate exit clockOutTime totalHours)
                     (clock_entries db)) in
              (* 5. Record exit_confirmed *)
              let db2 :=
                insert_event db1
                  (exitConfirmedEvent exit clockEntry clockOutTime) in
              (* Clean up the original exit_detected event *)
              let db3 := deleteExit db2 exit in
              (* 6. Send notification *)
              insert_notification db3 (notificationFor now exit clockOutTime)
        end
  end.

(** The invocation: purge of stale exits, selection of the expired exits and
    the loop over them. *)
Definition sweep (now : Z) (db : Db) : SweepStatus * Db :=
  let cutoffTime := now - AUTO_DELAY_MS in
  (* Clean up stale exit_detected events older than 24 hours *)
  let staleThreshold := now - 24 * 60 * 60 * 1000 in
  let db0 :=
    set_geofence_events db
      (delete_where (fun e => has_type exit_detected e
                              && (timestamp e <? staleThreshold))
                    (geofence_events db)) in
  (* 1. exit_detected events older than 5 minutes *)
  let exits :=
    filter (fun e => has_type exit_detected e
                     && (timestamp e <? cutoffTime)
                     && (staleThreshold <? timestamp e))
           (geofence_events db0) in
  match exits with
  | [] => (no_pending_exits, db0)
  | _ => (processed (length exits), fold_left (processExit now) exits db0)
  end.

(** ** A concrete scenario

    A regular session clocked in at 09:00; an exit detected at 16:40 and
    swept at 16:50. *)

Definition demoDay : Z := 20000 * MS_PER_DAY.
Definition demoT0 : Z := demoDay + 9 * MS_PER_HOUR.
Definition demoT1 : Z := demoDay + (16 * 60 + 40) * 60 * 1000.
Definition demoNow : Z := demoDay + (16 * 60 + 50) * 60 * 1000.

Definition demoSession (overtime : bool) : ClockEntry :=
  {| ce_id := "entry-1"; ce_worker_id := "worker-1"; ce_job_id := "job-1";
     clock_in := demoT0; clock_out := None;
     clock_out_lat := None; clock_out_lng := None;
     is_overtime := overtime; auto_clocked_out := false;
     auto_clockout_type := None; auto_clockout_reason := None;
     total_hours := None; geofence_exit_data := None; status := None |}.

Definition demoEvent (id : nat) (type : EventType) (distance : number)
    (t : Z) : GeofenceEvent :=
  {| ev_id := id; ev_worker_id := "worker-1"; clock_entry_id := "entry-1";
     shift_date := 20000; event_type := type;
     latitude := (515 # 10); longitude := (-1 # 10); accuracy := 10%Q;
     distance_from_center := distance; job_radius := 100%Q;
     safe_out_threshold := 150%Q; timestamp := t; resolved_at := None |}.

Definition demoExit : GeofenceEvent := demoEvent 1 exit_detected 160 demoT1.

Definition demoStore (overtime : bool) (events : list GeofenceEvent) : Db :=
  {| clock_entries := [demoSession overtime]; geofence_events := events;
     notifications := []; notification_log := [];
     jobs := []; workers := []; next_event_id := 10 |}.

(** The worker is seen back inside two minutes after the exit. *)
Definition demoReturn : GeofenceEvent :=
  demoEvent 2 location_fix 40 (demoT1 + 2 * 60 * 1000).

(** An earlier exit of the same session was already cancelled by a re-entry. *)
Definition demoEarlierReEntry : GeofenceEvent :=
  demoEvent 0 re_entry 30 (demoT1 - MS_PER_HOUR).

(** ** Properties of the grace sweep *)

Lemma set_geofence_events_same (db : Db) :
  set_geofence_events db (geofence_events db) = db.
Proof. destruct db; reflexivity. Qed.

Lemma entryOf_clockOutUpdate (exit x : GeofenceEvent) (t : Z) (h : number)
    (ce : ClockEntry) :
  entryOf exit (clockOutUpdate x t h ce) = entryOf exit ce.
Proof. reflexivity. Qed.

(** The finalising branch of the loop body, with the session located in the
    table. *)
Lemma processExit_finalize (now : Z) (db : Db) (exit : GeofenceEvent)
    (ce : ClockEntry) :
  existingEvents db exit = [] ->
  existsb backInside (recentFixes db exit) = false ->
  single (filter (entryOf exit) (clock_entries db)) = Some ce ->
  is_overtime ce = false ->
  clock_out ce = None ->
  let clockOutTime := timestamp exit in
  let ce' :=
    clockOutUpdate exit clockOutTime (hoursBetween clockOutTime (clock_in ce))
                   ce in
  exists l1 l2,
    clock_entries db = l1 ++ ce :: l2
    /\ filter (entryOf exit) l1 = []
    /\ filter (entryOf exit) l2 = []
    /\ processExit now db exit
       = insert_notification
           (deleteExit
              (insert_event (set_clock_entries db (l1 ++ ce' :: l2))
                            (exitConfirmedEvent exit ce clockOutTime))
              exit)
           (notificationFor now exit clockOutTime).
Proof.
  intros Hev Hfix Hce Hot Hout clockOutTime ce'.
  apply single_Some in Hce.
  destruct (filter_single_split _ _ _ Hce) as (l1 & l2 & Hl & H1 & H2 & Hx).
  exists l1, l2. repeat split; try assumption.
  unfold processExit. rewrite Hev, Hfix, Hce.
  cbv beta iota delta [single]. rewrite Hot, Hout.
  cbn [negb isNull andb]. cbv zeta. fold clockOutTime.
  do 4 f_equal.
  rewrite Hl. apply update_where_split.
  - intros r Hr. rewrite (filter_nil_forall _ _ H1 r Hr). reflexivity.
  - intros r Hr. rewrite (filter_nil_forall _ _ H2 r Hr). reflexivity.
  - rewrite Hx, Hout. reflexivity.
Qed.

(** C3. When the loop body finalises a regular session (no [re_entry] or
    [exit_confirmed] row, no fix back inside, session open) from an exit
    detected at [T1], the session row gets [clock_out = T1] (the exit's
    timestamp, not the sweep time [now]), [total_hours = (T1 - T0)] in hours
    and [auto_clocked_out = true]; the type written is ["geofence"], which is
    not the ["geofence_based"] of the overtime path. *)
Theorem grace_finalize_fields (now : Z) (db : Db) (exit : GeofenceEvent)
    (ce : ClockEntry) :
  existingEvents db exit = [] ->
  existsb backInside (recentFixes db exit) = false ->
  single (filter (entryOf exit) (clock_entries db)) = Some ce ->
  is_overtime ce = false ->
  clock_out ce = None ->
  exists ce',
    single (filter (entryOf exit) (clock_entries (processExit now db exit)))
    = Some ce'
    /\ clock_out ce' = Some (timestamp exit)
    /\ total_hours ce' = Some (hoursBetween (timestamp exit) (clock_in ce))
    /\ auto_clocked_out ce' = true
    /\ auto_clockout_type ce' = Some "geofence"%string
    /\ auto_clockout_type ce' <> Some "geofence_based"%string.
Proof.
  intros Hev Hfix Hce Hot Hout.
  destruct (processExit_finalize now db exit ce Hev Hfix Hce Hot Hout)
    as (l1 & l2 & Hl & H1 & H2 & Hp).
  cbv zeta in Hp. rewrite Hp. simpl clock_entries.
  eexists. split.
  - rewrite filter_app. simpl. rewrite H1, H2.
    rewrite entryOf_clockOutUpdate.
    apply single_Some in Hce. rewrite Hl in Hce.
    rewrite filter_app in Hce. simpl in Hce. rewrite H1, H2 in Hce.
    destruct (entryOf exit ce); [reflexivity | discriminate Hce].
  - simpl. repeat split. discriminate.
Qed.

Lemma only_exit_is (db : Db) (exit r : GeofenceEvent) :
  filter (has_type exit_detected) (geofence_events db) = [exit] ->
  In r (geofence_events db) -> has_type exit_detected r = true -> r = exit.
Proof.
  intros H Hr Ht.
  assert (Hin : In r (filter (has_type exit_detected) (geofence_events db)))
    by (apply filter_In; split; assumption).
  rewrite H in Hin. destruct Hin as [E | []]. symmetry. exact E.
Qed.

(** A sweep over a store whose only [exit_detected] row is an expired,
    non-stale one runs the loop body once, on that row. *)
Lemma sweep_single (now : Z) (db : Db) (exit : GeofenceEvent) :
  filter (has_type exit_detected) (geofence_events db) = [exit] ->
  timestamp exit < now - AUTO_DELAY_MS ->
  now - 24 * 60 * 60 * 1000 < timestamp exit ->
  sweep now db = (processed 1, processExit now db exit).
Proof.
  intros H Hold Hfresh. unfold sweep. cbv zeta.
  rewrite delete_where_none.
  2: { intros r Hr. destruct (has_type exit_detected r) eqn:E; [|reflexivity].
       rewrite (only_exit_is db exit r H Hr E). simpl.
       apply Z.ltb_ge. lia. }
  rewrite set_geofence_events_same.
  rewrite (filter_ext _
             (fun e => has_type exit_detected e
                       && ((timestamp e <? now - AUTO_DELAY_MS)
                           && (now - 24 * 60 * 60 * 1000 <? timestamp e))))
    by (intro e; rewrite andb_assoc; reflexivity).
  rewrite filter_and, H.
  assert (Q : forall q : GeofenceEvent -> bool,
             q exit = true -> filter q [exit] = [exit])
    by (intros q Hq; simpl; rewrite Hq; reflexivity).
  rewrite Q; [reflexivity|].
  rewrite andb_true_iff, !Z.ltb_lt. split; assumption.
Qed.

(** Without [exit_detected] rows the sweep changes nothing. *)
Lemma sweep_no_exits (now : Z) (db : Db) :
  filter (has_type exit_detected) (geofence_events db) = [] ->
  sweep now db = (no_pending_exits, db).
Proof.
  intro H. unfold sweep. cbv zeta.
  pose proof (filter_nil_forall _ _ H) as Hn.
  rewrite delete_where_none
    by (intros r Hr; rewrite (Hn r Hr); reflexivity).
  rewrite set_geofence_events_same.
  rewrite filter_none; [reflexivity|].
  intros r Hr. rewrite (Hn r Hr). reflexivity.
Qed.

Lemma no_exit_left (db : Db) (exit extra : GeofenceEvent) :
  filter (has_type exit_detected) (geofence_events db) = [exit] ->
  has_type exit_detected extra = false ->
  filter (has_type exit_detected)
         (delete_where (fun e => Nat.eqb (ev_id e) (ev_id exit))
                       (geofence_events db ++ [extra])) = [].
Proof.
  intros H Hx. apply filter_none. intros r Hr.
  unfold delete_where in Hr. apply filter_In in Hr. destruct Hr as [Hr Hid].
  apply in_app_or in Hr. destruct Hr as [Hr | [<- | []]]; [|exact Hx].
  destruct (has_type exit_detected r) eqn:E; [|reflexivity].
  rewrite (only_exit_is db exit r H Hr E) in Hid.
  rewrite Nat.eqb_refl in Hid. discriminate Hid.
Qed.

(** C4. Two sweeps in a row over a store whose only [exit_detected] row is
    an expired exit of an open regular session (no re-entry): the first
    sweep changes exactly the session row, setting its [clock_out], and
    inserts exactly one notification; the second sweep finds nothing to do
    and leaves the store as it is. *)
Theorem grace_sweep_twice (now1 now2 : Z) (db : Db) (exit : GeofenceEvent)
    (ce : ClockEntry) :
  filter (has_type exit_detected) (geofence_events db) = [exit] ->
  timestamp exit < now1 - AUTO_DELAY_MS ->
  now1 - 24 * 60 * 60 * 1000 < timestamp exit ->
  existingEvents db exit = [] ->
  existsb backInside (recentFixes db exit) = false ->
  single (filter (entryOf exit) (clock_entries db)) = Some ce ->
  is_overtime ce = false ->
  clock_out ce = None ->
  let db1 := snd (sweep now1 db) in
  let db2 := snd (sweep now2 db1) in
  (exists l1 l2 ce',
      clock_entries db = l1 ++ ce :: l2
      /\ clock_entries db1 = l1 ++ ce' :: l2
      /\ clock_out ce' = Some (timestamp exit))
  /\ notifications db1
     = notifications db ++ [notificationFor now1 exit (timestamp exit)]
  /\ fst (sweep now2 db1) = no_pending_exits
  /\ db2 = db1.
Proof.
  intros Hone Hold Hfresh Hev Hfix Hce Hot Hout db1 db2.
  destruct (processExit_finalize now1 db exit ce Hev Hfix Hce Hot Hout)
    as (l1 & l2 & Hl & _ & _ & Hp).
  cbv zeta in Hp.
  assert (E1 : db1 = processExit now1 db exit)
    by (unfold db1; rewrite (sweep_single now1 db exit Hone Hold Hfresh);
        reflexivity).
  assert (E2 : sweep now2 db1 = (no_pending_exits, db1)).
  { apply sweep_no_exits. rewrite E1, Hp.
    apply (no_exit_left db exit _ Hone). reflexivity. }
  split; [|split; [|split]].
  - exists l1, l2. eexists. split; [exact Hl|].
    rewrite E1, Hp. split; reflexivity.
  - rewrite E1, Hp. reflexivity.
  - rewrite E2. reflexivity.
  - unfold db2. rewrite E2. reflexivity.
Qed.

(** C5 (as amended). When the loop body examines a pending exit and a
    [location_fix] of the same session after the exit lies within the job
    radius with accuracy at most 50 m, the session is not finalised: no
    session row and no notification is written, and the exit row is deleted.
    If the session has no [re_entry] or [exit_confirmed] row yet, a
    [re_entry] row is written; if it already has one, the exit row is only
    deleted and no row is written. *)
Theorem reentry_cancels_exit (now : Z) (db : Db) (exit f : GeofenceEvent) :
  In f (geofence_events db) ->
  clock_entry_id f = clock_entry_id exit ->
  event_type f = location_fix ->
  timestamp exit < timestamp f ->
  (distance_from_center f <= job_radius f)%Q ->
  (accuracy f <= 50)%Q ->
  let db' := processExit now db exit in
  let discard := delete_where (fun e => Nat.eqb (ev_id e) (ev_id exit)) in
  (clock_entries db' = clock_entries db
   /\ notifications db' = notifications db
   /\ ~ In exit (geofence_events db'))
  /\ (existingEvents db exit = [] ->
      exists fx,
        let row := reEntryEvent now exit (Some fx) (next_event_id db) in
        In fx (recentFixes db exit) /\ backInside fx = true
        /\ event_type row = re_entry
        /\ geofence_events db' = discard (geofence_events db ++ [row])
        /\ (ev_id exit <> next_event_id db -> In row (geofence_events db')))
  /\ (existingEvents db exit <> [] ->
      geofence_events db' = discard (geofence_events db)
      /\ forall e, In e (geofence_events db') -> In e (geofence_events db)).
Proof.
  intros Hf Hsame Htype Hlater Hdist Hacc db' discard.
  assert (Hrecent : In f (recentFixes db exit)).
  { apply filter_In. split; [exact Hf|].
    unfold sameEntry, has_type. rewrite Hsame, Htype, String.eqb_refl. simpl.
    apply Z.ltb_lt. exact Hlater. }
  assert (Hback : backInside f = true).
  { unfold backInside, ACCURACY_PASS_M. apply andb_true_iff.
    split; apply Qle_bool_iff; assumption. }
  assert (Hsome : existsb backInside (recentFixes db exit) = true)
    by (apply existsb_exists; exists f; split; assumption).
  destruct (find backInside (recentFixes db exit)) as [fx|] eqn:Hfind.
  2: { rewrite (find_none _ _ Hfind f Hrecent) in Hback. discriminate Hback. }
  destruct (find_some _ _ Hfind) as [Hfx1 Hfx2].
  assert (Hgone : forall l, ~ In exit (discard l)).
  { intros l Hin. unfold discard, delete_where in Hin.
    apply filter_In in Hin. destruct Hin as [_ Hin].
    rewrite Nat.eqb_refl in Hin. discriminate Hin. }
  destruct (existingEvents db exit) as [|x l] eqn:Hev.
  - assert (Hp : db' = deleteExit
                         (insert_event db (reEntryEvent now exit (Some fx)))
                         exit).
    { unfold db', processExit. rewrite Hev, Hsome. cbv zeta. rewrite Hfind.
      reflexivity. }
    rewrite Hp. simpl clock_entries. simpl notifications.
    simpl geofence_events. fold discard.
    split; [|split].
    + split; [reflexivity|]. split; [reflexivity | apply Hgone].
    + intros _. exists fx. cbv zeta.
      split; [exact Hfx1|]. split; [exact Hfx2|].
      split; [reflexivity|]. split; [reflexivity|].
      intro Hid. unfold discard, delete_where. apply filter_In. split.
      * apply in_or_app. right. left. reflexivity.
      * simpl. apply negb_true_iff, Nat.eqb_neq.
        intro E. apply Hid. symmetry. exact E.
    + intro H. exfalso. apply H. reflexivity.
  - assert (Hp : db' = deleteExit db exit).
    { unfold db', processExit. rewrite Hev. reflexivity. }
    rewrite Hp. simpl clock_entries. simpl notifications.
    simpl geofence_events. fold discard.
    split; [|split].
    + split; [reflexivity|]. split; [reflexivity | apply Hgone].
    + intro H. discriminate H.
    + intros _. split; [reflexivity|].
      intros e He. unfold discard, delete_where in He.
      apply filter_In in He. tauto.
Qed.

Lemma processExit_keeps_overtime (now : Z) (db : Db) (exit : GeofenceEvent)
    (i : nat) (ce : ClockEntry) :
  nth_error (clock_entries db) i = Some ce ->
  is_overtime ce = true ->
  nth_error (clock_entries (processExit now db exit)) i = Some ce.
Proof.
  intros Hi Hot. unfold processExit.
  destruct (existingEvents db exit); [|exact Hi].
  destruct (existsb backInside (recentFixes db exit)); [exact Hi|].
  destruct (single _) as [c|] eqn:S; [|exact Hi].
  destruct (is_overtime c) eqn:Hc; [exact Hi|].
  destruct (_ && _); [exact Hi|].
  simpl clock_entries. unfold update_where.
  rewrite nth_error_map, Hi. simpl.
  destruct (entryOf exit ce) eqn:E; [|reflexivity].
  exfalso. apply single_Some in S.
  assert (Hin : In ce (filter (entryOf exit) (clock_entries db))).
  { apply filter_In. split; [|exact E]. eapply nth_error_In. exact Hi. }
  rewrite S in Hin. destruct Hin as [<- | []]. congruence.
Qed.

Lemma loop_keeps_overtime (now : Z) (exits : list GeofenceEvent) (db : Db)
    (i : nat) (ce : ClockEntry) :
  nth_error (clock_entries db) i = Some ce ->
  is_overtime ce = true ->
  nth_error (clock_entries (fold_left (processExit now) exits db)) i = Some ce.
Proof.
  revert db. induction exits as [|e exits IH]; simpl; intros db Hi Hot.
  - exact Hi.
  - apply IH; [|exact Hot]. apply processExit_keeps_overtime; assumption.
Qed.

(** The update is guarded by [clock_out IS NULL]: a row whose [clock_out]
    is set is left as it is by the loop body. *)
Lemma processExit_keeps_closed (now : Z) (db : Db) (exit : GeofenceEvent)
    (i : nat) (ce : ClockEntry) :
  nth_error (clock_entries db) i = Some ce ->
  clock_out ce <> None ->
  nth_error (clock_entries (processExit now db exit)) i = Some ce.
Proof.
  intros Hi Hout. unfold processExit.
  destruct (existingEvents db exit); [|exact Hi].
  destruct (existsb backInside (recentFixes db exit)); [exact Hi|].
  destruct (single _) as [c|]; [|exact Hi].
  destruct (is_overtime c); [exact Hi|].
  destruct (_ && _); [exact Hi|].
  simpl clock_entries. unfold update_where.
  rewrite nth_error_map, Hi. simpl.
  destruct (clock_out ce); [|congruence].
  rewrite andb_false_r. reflexivity.
Qed.

(** C9. The grace sweep never closes an overtime session: the loop body
    leaves [clock_entries] untouched when the exit's session is an overtime
    one, and a whole sweep leaves every overtime row of the table as it was
    (in particular its [clock_out]). *)
Theorem grace_skips_overtime :
  (forall (now : Z) (db : Db) (exit : GeofenceEvent) (ce : ClockEntry),
      single (filter (entryOf exit) (clock_entries db)) = Some ce ->
      is_overtime ce = true ->
      clock_entries (processExit now db exit) = clock_entries db)
  /\ (forall (now : Z) (db : Db) (i : nat) (ce : ClockEntry),
         nth_error (clock_entries db) i = Some ce ->
         is_overtime ce = true ->
         nth_error (clock_entries (snd (sweep now db))) i = Some ce).
Proof.
  split.
  - intros now db exit ce Hce Hot. unfold processExit.
    destruct (existingEvents db exit); [|reflexivity].
    destruct (existsb backInside (recentFixes db exit)); [reflexivity|].
    rewrite Hce, Hot. reflexivity.
  - intros now db i ce Hi Hot. unfold sweep. cbv zeta.
    match goal with
    | |- context [match ?l with [] => _ | _ :: _ => _ end] =>
        destruct l eqn:E
    end.
    + exact Hi.
    + cbn [snd]. apply loop_keeps_overtime; [exact Hi | exact Hot].
Qed.

Lemma grace_finalize_fields_witness :
  exists ce',
    single (filter (entryOf demoExit)
                   (clock_entries
                      (processExit demoNow (demoStore false [demoExit])
                                   demoExit)))
    = Some ce'
    /\ clock_out ce' = Some demoT1
    /\ auto_clockout_type ce' = Some "geofence"%string.
Proof.
  destruct (grace_finalize_fields demoNow (demoStore false [demoExit])
              demoExit (demoSession false)
              eq_refl eq_refl eq_refl eq_refl eq_refl)
    as (ce' & H1 & H2 & _ & _ & H5 & _).
  exists ce'. split; [exact H1|]. split; [exact H2 | exact H5].
Defined.

Lemma grace_sweep_twice_witness :
  let db1 := snd (sweep demoNow (demoStore false [demoExit])) in
  length (notifications db1) = 1%nat
  /\ snd (sweep (demoNow + 60 * 1000) db1) = db1.
Proof.
  assert (H1 : demoT1 < demoNow - AUTO_DELAY_MS) by (vm_compute; reflexivity).
  assert (H2 : demoNow - 24 * 60 * 60 * 1000 < demoT1)
    by (vm_compute; reflexivity).
  destruct (grace_sweep_twice demoNow (demoNow + 60 * 1000)
              (demoStore false [demoExit]) demoExit (demoSession false)
              eq_refl H1 H2 eq_refl eq_refl eq_refl eq_refl eq_refl)
    as (_ & Hn & _ & Hs).
  split; [rewrite Hn; reflexivity | exact Hs].
Defined.

(** C5, as first stated, fails: the exit at 16:40 is followed by a fix back
    inside (40 m from the center of a 100 m fence, accuracy 10 m), but the
    session already has a [re_entry] row from an earlier excursion; the sweep
    only deletes the exit row and writes no [re_entry] row. *)
Lemma reentry_event_not_always_written :
  let db := demoStore false [demoEarlierReEntry; demoExit; demoReturn] in
  let db' := snd (sweep demoNow db) in
  (event_type demoExit = exit_detected /\ resolved_at demoExit = None)
  /\ (event_type demoReturn = location_fix
      /\ clock_entry_id demoReturn = clock_entry_id demoExit
      /\ timestamp demoExit < timestamp demoReturn
      /\ (distance_from_center demoReturn <= job_radius demoReturn)%Q
      /\ (accuracy demoReturn <= 50)%Q)
  /\ geofence_events db' = [demoEarlierReEntry; demoReturn]
  /\ ~ (exists e, In e (geofence_events db')
                  /\ event_type e = re_entry
                  /\ ~ In e (geofence_events db)).
Proof.
  cbv zeta.
  assert (E : geofence_events
                (snd (sweep demoNow
                        (demoStore false
                           [demoEarlierReEntry; demoExit; demoReturn])))
              = [demoEarlierReEntry; demoReturn])
    by (vm_compute; reflexivity).
  repeat split; try reflexivity; try exact E;
    try (unfold Qle; simpl; lia).
  intros (e & Hin & _ & Hnew). apply Hnew. rewrite E in Hin.
  simpl. simpl in Hin. tauto.
Qed.

Lemma reentry_cancels_exit_witness :
  let db := demoStore false [demoExit; demoReturn] in
  let db' := processExit demoNow db demoExit in
  clock_entries db' = clock_entries db
  /\ ~ In demoExit (geofence_events db')
  /\ exists row, In row (geofence_events db') /\ event_type row = re_entry.
Proof.
  assert (Hd : (distance_from_center demoReturn <= job_radius demoReturn)%Q)
    by (unfold Qle; simpl; lia).
  assert (Ha : (accuracy demoReturn <= 50)%Q) by (unfold Qle; simpl; lia).
  assert (Ht : timestamp demoExit < timestamp demoReturn)
    by (vm_compute; reflexivity).
  destruct (reentry_cancels_exit demoNow
              (demoStore false [demoExit; demoReturn]) demoExit demoReturn
              (or_intror (or_introl eq_refl)) eq_refl eq_refl Ht Hd Ha)
    as ((H1 & _ & H3) & Hnew & _).
  destruct (Hnew eq_refl) as (fx & _ & _ & Hty & _ & Hin).
  split; [exact H1|]. split; [exact H3|].
  eexists. split; [apply Hin; discriminate | exact Hty].
Defined.

Lemma grace_skips_overtime_witness :
  clock_entries (snd (sweep demoNow (demoStore true [demoExit])))
  = [demoSession true].
Proof.
  pose proof (proj2 grace_skips_overtime demoNow (demoStore true [demoExit])
                    0%nat (demoSession true) eq_refl eq_refl) as H.
  pose proof (proj1 grace_skips_overtime demoNow (demoStore true [demoExit])
                    demoExit (demoSession true) eq_refl eq_refl) as H'.
  rewrite (sweep_single demoNow (demoStore true [demoExit]) demoExit eq_refl)
    by (vm_compute; reflexivity).
  exact H'.
Defined.

End CheckGraceExpiry.

(** * check-ot-autoclockout *)

Module CheckOtAutoclockout.

Definition MAX_OT_HOURS : number := 3%Q.
Definition GRACE_PERIOD_MINUTES : Z := 5.

(** The columns selected from an active overtime entry. *)
Record ActiveOT := {
  a_id : string;
  a_worker_id : string;
  a_job_id : string;
  a_clock_in : Z
}.

Definition activeOT (ce : ClockEntry) : ActiveOT :=
  {| a_id := ce_id ce; a_worker_id := ce_worker_id ce;
     a_job_id := ce_job_id ce; a_clock_in := clock_in ce |}.

Definition limitReason : string :=
  "Maximum 3-hour overtime limit reached. If you worked longer, please request a time amendment.".

Section Sweep.

(** [d.toLocaleTimeString("en-US", ...)], the clock time shown to the worker. *)
Variable toLocaleTimeString : Z -> string.

Definition leftSiteReason (exitTime : Z) : string :=
  ("Left job site at " ++ toLocaleTimeString exitTime ++ " during overtime")%string.

(** The columns written by the overtime auto clock-out [update]. *)
Definition clockOutUpdate (clockOutTime : Z) (reason : string)
    (totalHours : number) (ce : ClockEntry) : ClockEntry :=
  {| ce_id := ce_id ce;
     ce_worker_id := ce_worker_id ce;
     ce_job_id := ce_job_id ce;
     clock_in := clock_in ce;
     clock_out := Some clockOutTime;
     clock_out_lat := clock_out_lat ce;
     clock_out_lng := clock_out_lng ce;
     is_overtime := is_overtime ce;
     auto_clocked_out := true;
     auto_clockout_type := auto_clockout_type ce;
     auto_clockout_reason := Some reason;
     total_hours := Some totalHours;
     geofence_exit_data := geofence_exit_data ce;
     status := status ce |}.

Definition autoClockOut (now : Z) (db : Db) (entry : ActiveOT)
    (reason : string) : Db :=
  let clockOutTime := now in
  (* Calculate total OT hours *)
  let totalHours := hoursBetween clockOutTime (a_clock_in entry) in
  (* Update OT clock entry: [.eq('id', entry.id)] is the only filter *)
  let db1 :=
    set_clock_entries db
      (update_where (fun ce => String.eqb (ce_id ce) (a_id entry))
                    (clockOutUpdate clockOutTime reason totalHours)
                    (clock_entries db)) in
  (* Resolve any unresolved exit_detected events for this OT entry *)
  let db2 := resolveExits db1 (a_id entry) clockOutTime in
  (* In-app notification *)
  insert_notification db2
    {| n_worker_id := a_worker_id entry;
       n_title := "Overtime Auto Clock-Out";
       n_type := "overtime_auto_clockout";
       dedupe_key := OtAuto (a_id entry) clockOutTime;
       created_at := clockOutTime |}.

(** The body of the loop [for (const entry of activeOTs)]; the counter
    [autoClockedOut] is threaded with the store. *)
Definition checkEntry (now : Z) (acc : nat * Db) (entry : ActiveOT)
  : nat * Db :=
  let (autoClockedOut, db) := acc in
  let hoursWorked := hoursBetween now (a_clock_in entry) in
  (* Check 1: Geofence exit detected with grace period *)
  let exitEvents :=
    orderByTimestampDesc
      (filter (unresolvedExit (a_id entry)) (geofence_events db)) in
  let expired :=
    (* the earliest unresolved exit event *)
    match nth_error exitEvents (length exitEvents - 1) with
    | Some firstExitEvent =>
        let exitTime := timestamp firstExitEvent in
        let gracePeriodMs := GRACE_PERIOD_MINUTES * 60 * 1000 in
        let timeSinceExit := now - exitTime in
        if gracePeriodMs <=? timeSinceExit then Some exitTime else None
    | None => None
    end in
  match expired with
  | Some exitTime =>
      (S autoClockedOut, autoClockOut now db entry (leftSiteReason exitTime))
  | None =>
      (* Check 2: 3-hour OT limit reached *)
      if Qle_bool MAX_OT_HOURS hoursWorked
      then (S autoClockedOut, autoClockOut now db entry limitReason)
      else acc
  end.

Definition sweep (now : Z) (db : Db) : nat * Db :=
  (* all active OT sessions (no clock_out yet) *)
  let activeOTs :=
    map activeOT
        (filter (fun ce => is_overtime ce && isNull (clock_out ce))
                (clock_entries db)) in
  fold_left (checkEntry now) activeOTs (0%nat, db).

End Sweep.

End CheckOtAutoclockout.

(** * check-clock-status: the overtime part *)

Module CheckClockStatus.

(** The three reason texts; only whether the text contains ["site"] is
    observed. *)
Inductive Reason :=
| LeftSite (exitTime : Z)
| LimitReached (hrs : number)
| Exceeded (hrs : number).

(** [reason.includes("site")]. *)
Definition includesSite (r : Reason) : bool :=
  match r with LeftSite _ => true | _ => false end.

Definition sendNotification (now : Z) (db : Db) (id title type : string)
    (date : Z) : Db :=
  let key := WorkerDateType id (isoDate date) type in
  match maybeSingle (filter (fun n => DedupeKey_eqb (dedupe_key n) key)
                            (notifications db)) with
  | Some _ => db
  | None =>
      insert_notification db
        {| n_worker_id := id; n_title := title; n_type := type;
           dedupe_key := key; created_at := now |}
  end.

Definition logNotification (now : Z) (db : Db) (id type : string) (date : Z)
  : Db :=
  insert_notification_log db
    {| nl_worker_id := id; notification_type := type;
       nl_shift_date := isoDate date; sent_at := now; canceled := false |}.

(** The columns written by [autoClockOutOT]. *)
Definition clockOutUpdate (now : Z) (reason : Reason) (cappedHrs : number)
    (ce : ClockEntry) : ClockEntry :=
  {| ce_id := ce_id ce;
     ce_worker_id := ce_worker_id ce;
     ce_job_id := ce_job_id ce;
     clock_in := clock_in ce;
     clock_out := Some now;
     clock_out_lat := clock_out_lat ce;
     clock_out_lng := clock_out_lng ce;
     is_overtime := is_overtime ce;
     auto_clocked_out := true;
     auto_clockout_type :=
       Some (if includesSite reason then "geofence_based" else "time_based")%string;
     auto_clockout_reason := auto_clockout_reason ce;
     total_hours := Some cappedHrs;
     geofence_exit_data := geofence_exit_data ce;
     status := Some "pending"%string |}.

Definition autoClockOutOT (now : Z) (db : Db) (ot : ClockEntry) (date : Z)
    (reason : Reason) (forcedHours : option number) : Db :=
  let actualHrs := hoursBetween now (clock_in ot) in
  let totalHrs :=
    match forcedHours with
    | Some h => h
    | None => Qmax 0 actualHrs
    end in
  let cappedHrs := if Qlt_bool 3 totalHrs then 3%Q else totalHrs in
  let db1 :=
    set_clock_entries db
      (update_where (fun ce => String.eqb (ce_id ce) (ce_id ot))
                    (clockOutUpdate now reason cappedHrs)
                    (clock_entries db)) in
  let db2 := resolveExits db1 (ce_id ot) now in
  let title :=
    (if includesSite reason
     then "Auto Clocked-Out - Left Site During OT"
     else "Auto Clocked-Out - 3 Hour OT Limit Reached")%string in
  let db3 :=
    sendNotification now db2 (ce_worker_id ot) title "ot_auto_clockout" date in
  logNotification now db3 (ce_worker_id ot) "ot_auto_clockout" date.

(** The body of the loop of [checkActiveOvertimeSessions]. *)
Definition checkSession (now date : Z) (acc : nat * Db) (ot : ClockEntry)
  : nat * Db :=
  let (clockedOut, db) := acc in
  let hrs := hoursBetween now (clock_in ot) in
  let exits :=
    orderByTimestampDesc
      (filter (unresolvedExit (ce_id ot)) (geofence_events db)) in
  let expired :=
    match nth_error exits (length exits - 1) with
    | Some e =>
        let graceMs := 5 * 60 * 1000 in
        if graceMs <=? now - timestamp e then Some (timestamp e) else None
    | None => None
    end in
  match expired with
  | Some exitTime =>
      (S clockedOut,
       autoClockOutOT now db ot date (LeftSite exitTime) (Some hrs))
  | None =>
      (* 3-hour limit check *)
      if Qle_bool 3 hrs && Qle_bool hrs (3167 # 1000) then
        (S clockedOut,
         autoClockOutOT now db ot date (LimitReached hrs) (Some 3%Q))
      else if Qlt_bool (3167 # 1000) hrs then
        (S clockedOut,
         autoClockOutOT now db ot date (Exceeded hrs) (Some 3%Q))
      else acc
  end.

Definition checkActiveOvertimeSessions (now : Z) (db : Db) (date : Z)
  : nat * Db :=
  let activeOTs :=
    filter (fun ce => is_overtime ce && isNull (clock_out ce)
                      && negb (auto_clocked_out ce))
           (clock_entries db) in
  fold_left (checkSession now date) activeOTs (0%nat, db).

End CheckClockStatus.

(** * The overtime sweeps compared *)

Module OvertimeMonitor.

(** ** A concrete scenario

    An overtime session clocked in at 17:00. *)

Definition demoT0 : Z := 20000 * MS_PER_DAY + 17 * MS_PER_HOUR.

Definition otSession (out : option Z) (hours : option number) : ClockEntry :=
  {| ce_id := "ot-1"; ce_worker_id := "worker-1"; ce_job_id := "job-1";
     clock_in := demoT0; clock_out := out;
     clock_out_lat := None; clock_out_lng := None;
     is_overtime := true; auto_clocked_out := false;
     auto_clockout_type := None; auto_clockout_reason := None;
     total_hours := hours; geofence_exit_data := None; status := None |}.

Definition otStore (sessions : list ClockEntry) : Db :=
  {| clock_entries := sessions; geofence_events := [];
     notifications := []; notification_log := [];
     jobs := []; workers := []; next_event_id := 1 |}.

Definition demoFormat (_ : Z) : string := "7:40 PM".

(** The worker clocked out by hand after two hours. *)
Definition demoManualOut : Z := demoT0 + 2 * MS_PER_HOUR.
Definition closedByHand : ClockEntry :=
  otSession (Some demoManualOut) (Some 2%Q).

(** Sweep instants three hours and four and a half hours after clock-in. *)
Definition demo3h : Z := demoT0 + 3 * MS_PER_HOUR.
Definition demo4h30 : Z := demoT0 + 4 * MS_PER_HOUR + 30 * 60 * 1000.

(** ** Properties *)

Import CheckOtAutoclockout.

(** The update of [autoClockOut] is keyed on the id alone: the row is
    rewritten whatever its [clock_out] was. *)
Lemma autoClockOut_rewrites_row (now : Z) (db : Db) (entry : ActiveOT)
    (reason : string) (i : nat) (ce : ClockEntry) :
  nth_error (clock_entries db) i = Some ce ->
  ce_id ce = a_id entry ->
  nth_error (clock_entries (autoClockOut now db entry reason)) i
  = Some (CheckOtAutoclockout.clockOutUpdate
            now reason (hoursBetween now (a_clock_in entry)) ce).
Proof.
  intros Hi Hid. unfold autoClockOut. simpl clock_entries.
  unfold update_where. rewrite nth_error_map, Hi. simpl.
  rewrite Hid, String.eqb_refl. reflexivity.
Qed.

(** Without a pending exit, an entry at or past the limit is closed with
    the elapsed hours as they are. *)
Lemma checkEntry_records_elapsed (fmt : Z -> string) (now : Z) (n : nat)
    (db : Db) (entry : ActiveOT) (i : nat) (ce : ClockEntry) :
  filter (unresolvedExit (a_id entry)) (geofence_events db) = [] ->
  (3 <= hoursBetween now (a_clock_in entry))%Q ->
  nth_error (clock_entries db) i = Some ce ->
  ce_id ce = a_id entry ->
  nth_error (clock_entries (snd (checkEntry fmt now (n, db) entry))) i
  = Some (CheckOtAutoclockout.clockOutUpdate
            now limitReason (hoursBetween now (a_clock_in entry)) ce).
Proof.
  intros Hex Hh Hi Hid. unfold checkEntry. rewrite Hex. simpl nth_error.
  cbv iota. unfold MAX_OT_HOURS.
  apply Qle_bool_iff in Hh. rewrite Hh. simpl snd.
  apply autoClockOut_rewrites_row; assumption.
Qed.

Lemma sendNotification_clock_entries (now : Z) (db : Db)
    (id title type : string) (date : Z) :
  clock_entries (CheckClockStatus.sendNotification now db id title type date)
  = clock_entries db.
Proof.
  unfold CheckClockStatus.sendNotification.
  destruct (maybeSingle _); reflexivity.
Qed.

(** [autoClockOutOT] of check-clock-status never records more than three
    hours. *)
Lemma autoClockOutOT_capped (now : Z) (db : Db) (ot : ClockEntry) (date : Z)
    (reason : CheckClockStatus.Reason) (forcedHours : option number)
    (r : ClockEntry) :
  In r (clock_entries
          (CheckClockStatus.autoClockOutOT now db ot date reason forcedHours)) ->
  ce_id r = ce_id ot ->
  exists h, total_hours r = Some h /\ (h <= 3)%Q
            /\ (forall f, forcedHours = Some f -> (3 <= f)%Q -> (h == 3)%Q).
Proof.
  unfold CheckClockStatus.autoClockOutOT. cbv zeta.
  simpl clock_entries. rewrite sendNotification_clock_entries.
  simpl clock_entries. unfold update_where.
  intros Hin Hid. apply in_map_iff in Hin. destruct Hin as (x & Hx & _).
  destruct (String.eqb (ce_id x) (ce_id ot)) eqn:E.
  - subst r. simpl. eexists. split; [reflexivity|]. split.
    + destruct (Qlt_bool 3 _) eqn:C; [apply Qle_refl|].
      unfold Qlt_bool in C. apply negb_false_iff, Qle_bool_iff in C. exact C.
    + intros f -> Hf. destruct (Qlt_bool 3 f) eqn:C; [reflexivity|].
      unfold Qlt_bool in C. apply negb_false_iff, Qle_bool_iff in C.
      apply Qle_antisym; assumption.
  - subst r. rewrite Hid, String.eqb_refl in E. discriminate E.
Qed.

(** C1. The clock-out write of the overtime sweep is not conditioned on
    [clock_out IS NULL]: on a session the worker closed by hand at
    [demoManualOut], [autoClockOut] run with the snapshot of the entry
    replaces the [clock_out] by the sweep instant; the row is changed. *)
Theorem overtime_clock_out_unguarded :
  let db := otStore [closedByHand] in
  let db' :=
    autoClockOut demo3h db (activeOT closedByHand) limitReason in
  map clock_out (clock_entries db) = [Some demoManualOut]
  /\ map clock_out (clock_entries db') = [Some demo3h]
  /\ map auto_clocked_out (clock_entries db') = [true]
  /\ clock_entries db' <> clock_entries db.
Proof.
  cbv zeta. repeat split; try reflexivity.
  intro H. apply (f_equal (map clock_out)) in H.
  vm_compute in H. discriminate H.
Qed.

(** C2. The overtime sweep of check-ot-autoclockout records the elapsed
    hours uncapped: a session open for four and a half hours is closed with
    [total_hours = 4.5], not [3]; one open for exactly three hours is closed
    with [total_hours = 3].  The sweep of check-clock-status closes the
    four-and-a-half-hour session with [total_hours = 3]. *)
Theorem overtime_hours_not_capped :
  let db := otStore [otSession None None] in
  let hoursOf (r : nat * Db) := map total_hours (clock_entries (snd r)) in
  (exists h, hoursOf (sweep demoFormat demo4h30 db) = [Some h]
             /\ (h == 45 # 10)%Q /\ ~ (h == 3)%Q)
  /\ (exists h, hoursOf (sweep demoFormat demo3h db) = [Some h]
                /\ (h == 3)%Q)
  /\ (exists h,
         hoursOf (CheckClockStatus.checkActiveOvertimeSessions
                    demo4h30 db demo4h30) = [Some h]
         /\ (h == 3)%Q).
Proof.
  cbv zeta. split; [|split].
  - eexists. split; [vm_compute; reflexivity|].
    split; [reflexivity | intro H; discriminate H].
  - eexists. split; [vm_compute; reflexivity | reflexivity].
  - eexists. split; [vm_compute; reflexivity | reflexivity].
Qed.

End OvertimeMonitor.

(** * Further properties of track-location *)

Module TrackLocationFacts.

Import TrackLocation.

Lemma reliableExit_true_iff (distance accuracy radius threshold : number) :
  reliableExit distance accuracy radius threshold = true <->
  (threshold <= distance
   \/ (accuracy <= 50 /\ radius + Qmax 25 (accuracy / 2) <= distance))%Q.
Proof.
  pose proof (reliableExit_rule_false distance accuracy radius threshold) as F.
  destruct (reliableExit distance accuracy radius threshold).
  - split; [intros _|reflexivity].
    unfold ACCURACY_PASS_M in *.
    destruct (Qlt_le_dec distance threshold) as [H1|H1]; [|now left].
    destruct (Qlt_le_dec 50 accuracy) as [H2|H2].
    + exfalso. assert (Hf : true = false); [|discriminate Hf].
      apply F. intros [H | [H _]].
      * exact (Qlt_not_le _ _ H1 H).
      * exact (Qlt_not_le _ _ H2 H).
    + destruct (Qlt_le_dec distance (radius + Qmax 25 (accuracy / 2)))
        as [H3|H3]; [|right; split; assumption].
      exfalso. assert (Hf : true = false); [|discriminate Hf].
      apply F. intros [H | [_ H]].
      * exact (Qlt_not_le _ _ H1 H).
      * exact (Qlt_not_le _ _ H3 H).
  - split; [discriminate|]. intro H. exfalso.
    destruct F as [F _]. exact (F eq_refl H).
Qed.

(** [reliableExit] is monotone in the distance: a sample classified as an
    exit stays an exit at any larger distance, for the same accuracy, radius
    and threshold. *)
Theorem reliableExit_monotone (d d' accuracy radius threshold : number) :
  (d <= d')%Q ->
  reliableExit d accuracy radius threshold = true ->
  reliableExit d' accuracy radius threshold = true.
Proof.
  intros Hd H. apply reliableExit_true_iff in H. apply reliableExit_true_iff.
  destruct H as [H | [Ha H]].
  - left. exact (Qle_trans _ _ _ H Hd).
  - right. split; [exact Ha | exact (Qle_trans _ _ _ H Hd)].
Qed.

Lemma reliableExit_monotone_witness :
  reliableExit 200 10 100 150 = true.
Proof.
  apply (reliableExit_monotone 150 200 10 100 150).
  - unfold Qle; simpl; lia.
  - reflexivity.
Defined.

(** The safe-out threshold of a positive radius lies between 1.25 and 1.8
    times the radius, for the tabulated radii and for the fallback alike. *)
Theorem getSafeOutThreshold_bounds (r : number) :
  (0 < r ->
   (125 # 100) * r <= getSafeOutThreshold r
   /\ getSafeOutThreshold r <= (18 # 10) * r)%Q.
Proof.
  intro Hr. unfold getSafeOutThreshold, SAFE_OUT_TABLE, table_get.
  repeat match goal with
         | |- context [Qeq_bool ?k r] =>
             destruct (Qeq_bool k r) eqn:?E;
             [ apply Qeq_bool_eq in E; simpl or_else; rewrite <- E;
               split; unfold Qle; simpl; lia | clear E ]
         end.
  simpl. split; lra.
Qed.

Lemma getSafeOutThreshold_bounds_witness :
  ((125 # 100) * 250 <= getSafeOutThreshold 250)%Q.
Proof.
  apply (getSafeOutThreshold_bounds 250). reflexivity.
Defined.

(** ** The shift-end parser *)

(** Every accepted shift end is a time of day, and the normalised ["HH:MM"]
    text the handler derives from it parses back to the same time (which is
    what lets [checkLastHourWindow] parse it a second time). *)
Theorem parseShiftEnd_reparse (s : string) (h m : Z) :
  parseShiftEnd s = Some (h, m) ->
  (0 <= h <= 23 /\ 0 <= m <= 59)
  /\ parseShiftEnd (normalizeShiftEnd (h, m)) = Some (h, m).
Proof.
  intro H. destruct (parseShiftEnd_range s h m H) as [Hh Hm].
  split; [split; assumption|]. apply normalize_roundtrip; assumption.
Qed.

Lemma parseShiftEnd_reparse_witness :
  parseShiftEnd (normalizeShiftEnd (17, 30)) = Some (17, 30).
Proof.
  apply (parseShiftEnd_reparse " 5:30 PM " 17 30). reflexivity.
Defined.

Lemma twelve_hour_table :
  forallb
    (fun h =>
       forallb
         (fun m =>
            let hh := NilZero.string_of_uint (N.to_uint (N.of_nat h)) in
            let mm := padStart2 (Z.of_nat m) in
            let pm := if (h =? 12)%nat then 12 else Z.of_nat h + 12 in
            let am := if (h =? 12)%nat then 0 else Z.of_nat h in
            match parseShiftEnd (hh ++ ":" ++ mm ++ " PM"),
                  parseShiftEnd (hh ++ ":" ++ mm ++ "am"),
                  parseShiftEnd (hh ++ "pm") with
            | Some (h1, m1), Some (h2, m2), Some (h3, m3) =>
                (h1 =? pm) && (m1 =? Z.of_nat m)
                && (h2 =? am) && (m2 =? Z.of_nat m)
                && (h3 =? pm) && (m3 =? 0)
            | _, _, _ => false
            end)
         (seq 0 60))
    (seq 1 12) = true.
Proof. vm_compute. reflexivity. Qed.

(** The 12-hour forms follow the clock convention: for [1 <= h <= 12],
    ["h:mm PM"] is hour [h + 12] except that 12 PM is noon (12), ["h:mmam"]
    is hour [h] except that 12 AM is midnight (0), and ["hpm"] without
    minutes is on the hour. *)
Theorem parseShiftEnd_twelve_hour (h m : Z) :
  1 <= h <= 12 -> 0 <= m <= 59 ->
  let hh := NilZero.string_of_uint (N.to_uint (Z.to_N h)) in
  let mm := padStart2 m in
  let pm := if h =? 12 then 12 else h + 12 in
  let am := if h =? 12 then 0 else h in
  parseShiftEnd (hh ++ ":" ++ mm ++ " PM") = Some (pm, m)
  /\ parseShiftEnd (hh ++ ":" ++ mm ++ "am") = Some (am, m)
  /\ parseShiftEnd (hh ++ "pm") = Some (pm, 0).
Proof.
  intros Hh Hm.
  pose proof twelve_hour_table as T.
  rewrite forallb_forall in T.
  specialize (T (Z.to_nat h)). rewrite in_seq in T.
  assert (T' := T ltac:(lia)). clear T.
  rewrite forallb_forall in T'.
  specialize (T' (Z.to_nat m)). rewrite in_seq in T'.
  assert (T := T' ltac:(lia)). clear T'.
  cbv zeta in T. rewrite !Z2Nat.id in T by lia.
  replace (N.of_nat (Z.to_nat h)) with (Z.to_N h) in T by lia.
  replace ((Z.to_nat h =? 12)%nat) with (h =? 12) in T.
  2: { destruct (Z.eqb_spec h 12) as [E|E];
       [subst; reflexivity | symmetry; apply Nat.eqb_neq; lia]. }
  cbv zeta.
  destruct (parseShiftEnd _) as [[h1 m1]|]; [|discriminate T].
  destruct (parseShiftEnd _) as [[h2 m2]|]; [|discriminate T].
  destruct (parseShiftEnd _) as [[h3 m3]|]; [|discriminate T].
  repeat rewrite andb_true_iff in T. repeat rewrite Z.eqb_eq in T.
  destruct T as [[[[[-> ->] ->] ->] ->] ->]. repeat split.
Qed.

Lemma parseShiftEnd_twelve_hour_witness :
  parseShiftEnd "12:05am" = Some (0, 5).
Proof.
  apply (parseShiftEnd_twelve_hour 12 5); lia.
Defined.

Lemma dropWhite_head (l : list ascii) (c : ascii) (r : list ascii) :
  dropWhite l = c :: r -> isWhite c = false.
Proof.
  induction l as [|a l IH]; simpl; [discriminate|].
  destruct (isWhite a) eqn:E; [exact IH|].
  intro H. inversion H; subst. exact E.
Qed.

Lemma dropWhite_fixed (c : ascii) (r : list ascii) :
  isWhite c = false -> dropWhite (c :: r) = c :: r.
Proof. intro H. simpl. rewrite H. reflexivity. Qed.

Lemma dropWhite_idem (l : list ascii) : dropWhite (dropWhite l) = dropWhite l.
Proof.
  destruct (dropWhite l) as [|c r] eqn:E; [reflexivity|].
  apply dropWhite_fixed. exact (dropWhite_head l c r E).
Qed.

Lemma dropWhite_snoc (x : list ascii) (c : ascii) :
  isWhite c = false -> dropWhite (x ++ [c]) = dropWhite x ++ [c].
Proof.
  intro H. induction x as [|a x IH]; simpl.
  - rewrite H. reflexivity.
  - destruct (isWhite a); [exact IH | reflexivity].
Qed.

Definition trimList (l : list ascii) : list ascii :=
  rev (dropWhite (rev (dropWhite l))).

Lemma trimList_idem (l : list ascii) : trimList (trimList l) = trimList l.
Proof.
  unfold trimList.
  destruct (dropWhite l) as [|c r] eqn:E; [reflexivity|].
  pose proof (dropWhite_head l c r E) as Hc.
  assert (Ht : rev (dropWhite (rev (c :: r))) = c :: rev (dropWhite (rev r))).
  { change (rev (c :: r)) with (rev r ++ [c]).
    rewrite (dropWhite_snoc _ c Hc), rev_app_distr. reflexivity. }
  rewrite Ht, (dropWhite_fixed c _ Hc).
  assert (Hr : rev (c :: rev (dropWhite (rev r))) = dropWhite (rev r) ++ [c]).
  { change (rev (c :: rev (dropWhite (rev r))))
      with (rev (rev (dropWhite (rev r))) ++ [c]).
    rewrite rev_involutive. reflexivity. }
  rewrite Hr, (dropWhite_snoc _ c Hc), dropWhite_idem, <- Hr, rev_involutive.
  reflexivity.
Qed.

Lemma trim_idem (s : string) : trim (trim s) = trim s.
Proof.
  unfold trim. rewrite list_ascii_of_string_of_list_ascii.
  fold (trimList (list_ascii_of_string s)).
  fold (trimList (trimList (list_ascii_of_string s))).
  rewrite trimList_idem. reflexivity.
Qed.

Lemma isWhite_toLower (c : ascii) : isWhite (toLower c) = isWhite c.
Proof. destruct c as [[] [] [] [] [] [] [] []]; reflexivity. Qed.

Lemma toLower_idem (c : ascii) : toLower (toLower c) = toLower c.
Proof. destruct c as [[] [] [] [] [] [] [] []]; reflexivity. Qed.

Lemma dropWhite_map_toLower (l : list ascii) :
  dropWhite (map toLower l) = map toLower (dropWhite l).
Proof.
  induction l as [|a l IH]; simpl; [reflexivity|].
  rewrite isWhite_toLower. destruct (isWhite a); [exact IH | reflexivity].
Qed.

Lemma trim_toLowerCase (s : string) :
  trim (toLowerCase s) = toLowerCase (trim s).
Proof.
  unfold trim, toLowerCase.
  rewrite !list_ascii_of_string_of_list_ascii.
  rewrite dropWhite_map_toLower, <- map_rev, dropWhite_map_toLower, map_rev.
  reflexivity.
Qed.

Lemma toLowerCase_idem (s : string) :
  toLowerCase (toLowerCase s) = toLowerCase s.
Proof.
  unfold toLowerCase. rewrite list_ascii_of_string_of_list_ascii, map_map.
  f_equal. apply map_ext. exact toLower_idem.
Qed.

(** Parsing ignores surrounding whitespace and letter case: the trimmed text
    and the lower-cased text parse to the same result as the text itself. *)
Theorem parseShiftEnd_trim_case (s : string) :
  parseShiftEnd (trim s) = parseShiftEnd s
  /\ parseShiftEnd (toLowerCase s) = parseShiftEnd s.
Proof.
  unfold parseShiftEnd. split.
  - rewrite trim_idem. reflexivity.
  - rewrite trim_toLowerCase, toLowerCase_idem. reflexivity.
Qed.

(** ** The window and the handler *)

Section Handler.

Variable tz : Z.
Variable calculateDistance : number -> number -> number -> number -> number.

(** The last-hour window is a window of the current local day: for a shift
    end [h:m], the check succeeds exactly when the local time of day lies
    between [h:m] minus 60 minutes and [h:m].  A shift ending before 01:00
    therefore has no window on the evening before. *)
Theorem window_in_local_day (now clockIn h m : Z) :
  0 <= h <= 23 -> 0 <= m <= 59 ->
  let shiftEnd := (h * 60 + m) * 60 * 1000 in
  (checkLastHourWindow tz now clockIn (normalizeShiftEnd (h, m)) = true
   <-> shiftEnd - 60 * 60 * 1000 <= timeOfDay tz now <= shiftEnd)
  /\ (shiftEnd < timeOfDay tz now ->
      checkLastHourWindow tz now clockIn (normalizeShiftEnd (h, m)) = false).
Proof.
  intros Hh Hm shiftEnd.
  pose proof (checkLastHourWindow_normalized tz now clockIn h m Hh Hm) as W.
  unfold inLastHour, setHours in W.
  assert (I : checkLastHourWindow tz now clockIn (normalizeShiftEnd (h, m))
              = true
              <-> shiftEnd - 60 * 60 * 1000 <= timeOfDay tz now <= shiftEnd)
    by (rewrite W; unfold shiftEnd; lia).
  split; [exact I|].
  intro Hlate.
  destruct (checkLastHourWindow _ _ _ _); [|reflexivity].
  exfalso. assert (Hin := proj1 I eq_refl). lia.
Qed.

Lemma windowGate_http (now : Z) (db : Db) (payload : LocationPayload)
    (ce : ClockEntry) (st : Status) (http : Z) :
  windowGate tz now db payload ce = Some (st, http) ->
  (st = st_invalid_shift_end /\ http = 400)
  \/ ((st = st_no_shift_end \/ st = st_outside_window) /\ http = 200).
Proof.
  unfold windowGate.
  repeat match goal with
         | |- context [match ?x with _ => _ end] => destruct x
         end;
    intro H; inversion H; subst; tauto.
Qed.

(** The handler never closes a session and never notifies: whatever the
    input, it leaves every table but [geofence_events] as it was, and to
    that table it only appends at most two rows, each a [location_fix] or an
    [exit_detected] row of the payload's entry with the payload's
    timestamp. *)
Theorem handler_only_appends_events (now : Z) (db : Db)
    (payload : LocationPayload) :
  let out := handler tz calculateDistance now db payload in
  clock_entries (snd out) = clock_entries db
  /\ notifications (snd out) = notifications db
  /\ notification_log (snd out) = notification_log db
  /\ exists added,
      geofence_events (snd out) = geofence_events db ++ added
      /\ (length added <= 2)%nat
      /\ Forall (fun e =>
                   clock_entry_id e = p_clock_entry_id payload
                   /\ timestamp e = p_timestamp payload
                   /\ resolved_at e = None
                   /\ (event_type e = location_fix
                       \/ event_type e = exit_detected))
                added.
Proof.
  cbv zeta. unfold handler.
  destruct (findOpenEntry db payload) as [ce|].
  2: { simpl. repeat split. exists []. rewrite app_nil_r. simpl. auto. }
  destruct (validJob (jobOf db ce)) as [[[[job lat] lng] radius]|].
  2: { simpl. repeat split. exists []. rewrite app_nil_r. simpl. auto. }
  destruct (geofence_enabled job) as [[|]|]; cbv zeta;
    try destruct (if is_overtime ce then None
                  else windowGate tz now db payload ce) as [[st http]|];
    try destruct (reliableExit _ _ _ _);
    simpl; repeat split;
    try (rewrite <- app_assoc; simpl);
    eexists; (split; [reflexivity|]); simpl;
    (split; [lia|]);
    repeat (apply Forall_cons;
            [repeat split;
             solve [reflexivity | left; reflexivity | right; reflexivity]|]);
    apply Forall_nil.
Qed.

(** Every answer other than [not_clocked_in] and the invalid job data error
    leaves an audit row: the first row appended is the [location_fix] of the
    sample; the two excepted answers write nothing. *)
Theorem handler_audit_row (now : Z) (db : Db) (payload : LocationPayload) :
  let out := handler tz calculateDistance now db payload in
  if match r_status (fst out) with
     | st_not_clocked_in | st_invalid_job_data => true
     | _ => false
     end
  then snd out = db
  else exists row rest,
      geofence_events (snd out) = geofence_events db ++ row :: rest
      /\ event_type row = location_fix
      /\ ev_id row = next_event_id db
      /\ accuracy row = p_accuracy payload.
Proof.
  cbv zeta. unfold handler.
  destruct (findOpenEntry db payload) as [ce|]; [|reflexivity].
  destruct (validJob (jobOf db ce)) as [[[[job lat] lng] radius]|];
    [|reflexivity].
  destruct (geofence_enabled job) as [[|]|]; cbv zeta;
    try (destruct (if is_overtime ce then None
                   else windowGate tz now db payload ce) as [[st http]|] eqn:G;
         [ assert (Hst : st = st_no_shift_end \/ st = st_invalid_shift_end
                         \/ st = st_outside_window)
             by (destruct (is_overtime ce); [discriminate G|];
                 exact (windowGate_status tz now db payload ce st http G));
           destruct Hst as [-> | [-> | ->]]
         | destruct (reliableExit _ _ _ _) ]);
    simpl; try (rewrite <- app_assoc; simpl);
    do 2 eexists; (split; [reflexivity|]); repeat split.
Qed.

(** The HTTP status is 400 exactly for the invalid job data error and for
    an unparsable shift end, and 200 for every other answer. *)
Theorem handler_http_status (now : Z) (db : Db) (payload : LocationPayload) :
  let out := handler tz calculateDistance now db payload in
  r_http (fst out)
  = match r_status (fst out) with
    | st_invalid_job_data | st_invalid_shift_end => 400
    | _ => 200
    end.
Proof.
  cbv zeta. unfold handler.
  destruct (findOpenEntry db payload) as [ce|]; [|reflexivity].
  destruct (validJob (jobOf db ce)) as [[[[job lat] lng] radius]|];
    [|reflexivity].
  destruct (geofence_enabled job) as [[|]|]; cbv zeta;
    try (destruct (if is_overtime ce then None
                   else windowGate tz now db payload ce) as [[st http]|] eqn:G;
         [ assert (Hst : (st = st_invalid_shift_end /\ http = 400)
                         \/ ((st = st_no_shift_end \/ st = st_outside_window)
                             /\ http = 200))
             by (destruct (is_overtime ce); [discriminate G|];
                 exact (windowGate_http now db payload ce st http G));
           destruct Hst as [[-> ->] | [[-> | ->] ->]]
         | destruct (reliableExit _ _ _ _) ]);
    reflexivity.
Qed.

(** An overtime session is checked at any time of day: the answer is
    [exit_detected] or [inside_fence] according to the reliable-exit test
    alone, whatever the clock and whatever the worker's shift end. *)
Theorem handler_overtime_always_checked (now : Z) (db : Db)
    (payload : LocationPayload) (ce : ClockEntry) (job : Job)
    (lat lng radius : number) :
  findOpenEntry db payload = Some ce ->
  is_overtime ce = true ->
  validJob (jobOf db ce) = Some (job, lat, lng, radius) ->
  geofence_enabled job <> Some false ->
  let distance :=
    calculateDistance (p_latitude payload) (p_longitude payload) lat lng in
  r_status (fst (handler tz calculateDistance now db payload))
  = if reliableExit distance (p_accuracy payload) radius
                    (getSafeOutThreshold radius)
    then st_exit_detected else st_inside_fence.
Proof.
  intros He Hot Hj Hg distance.
  pose proof (handler_run tz calculateDistance now db payload ce job
                lat lng radius He Hj Hg) as R.
  cbv zeta in R. rewrite Hot in R. fold distance in R.
  destruct (reliableExit _ _ _ _); apply R.
Qed.

End Handler.

(** An overtime session whose worker has no row in [workers]; the sample
    is taken at 03:00 local time. *)
Definition demoOvertimeDb : Db :=
  {| clock_entries :=
       [ {| ce_id := "entry-1"; ce_worker_id := "worker-1";
            ce_job_id := "job-1";
            clock_in := demoMidnight; clock_out := None;
            clock_out_lat := None; clock_out_lng := None;
            is_overtime := true; auto_clocked_out := false;
            auto_clockout_type := None; auto_clockout_reason := None;
            total_hours := None; geofence_exit_data := None;
            status := None |} ];
     geofence_events := []; notifications := []; notification_log := [];
     jobs := [demoJob]; workers := []; next_event_id := 1 |}.

Lemma window_in_local_day_witness :
  checkLastHourWindow demoTz (demoMidnight + (23 * 60 + 45) * 60 * 1000) 0
                      (normalizeShiftEnd (0, 30)) = false.
Proof.
  assert (Hh : 0 <= 0 <= 23) by lia.
  assert (Hm : 0 <= 30 <= 59) by lia.
  apply (proj2 (window_in_local_day
                  demoTz (demoMidnight + (23 * 60 + 45) * 60 * 1000)
                  0 0 30 Hh Hm)).
  vm_compute. reflexivity.
Defined.

Lemma handler_overtime_always_checked_witness :
  r_status (fst (handler demoTz demoFar (demoMidnight + 3 * MS_PER_HOUR)
                         demoOvertimeDb
                         (demoPayload (demoMidnight + 3 * MS_PER_HOUR))))
  = st_exit_detected.
Proof.
  assert (Hg : geofence_enabled demoJob <> Some false) by discriminate.
  exact (handler_overtime_always_checked demoTz demoFar
           (demoMidnight + 3 * MS_PER_HOUR) demoOvertimeDb
           (demoPayload (demoMidnight + 3 * MS_PER_HOUR))
           (hd demoEntry (clock_entries demoOvertimeDb)) demoJob
           (515 # 10) (-1 # 10) 100%Q eq_refl eq_refl eq_refl Hg).
Defined.

(** The column is null or zero, which [!x] treats alike. *)
Definition zeroOrNull (v : option number) : Prop :=
  match v with
  | None => True
  | Some x => (x == 0)%Q
  end.

Lemma truthy_false_iff (v : option number) : truthy v = false <-> zeroOrNull v.
Proof.
  destruct v as [x|]; simpl; [|tauto].
  rewrite negb_false_iff. split; intro H.
  - apply Qeq_bool_eq. exact H.
  - apply Qeq_eq_bool. exact H.
Qed.

Lemma validJob_None_iff (job : option Job) :
  validJob job = None <->
  match job with
  | None => True
  | Some j => zeroOrNull (j_latitude j) \/ zeroOrNull (j_longitude j)
              \/ zeroOrNull (geofence_radius j)
  end.
Proof.
  destruct job as [j|]; simpl; [|tauto].
  rewrite <- !truthy_false_iff.
  destruct (j_latitude j) as [a|], (j_longitude j) as [b|],
           (geofence_radius j) as [c|]; simpl; try tauto.
  destruct (Qeq_bool a 0), (Qeq_bool b 0), (Qeq_bool c 0); simpl;
    split; intro H; try reflexivity; try discriminate; try tauto;
    destruct H as [H | [H | H]]; discriminate H.
Qed.

(** For a clocked-in worker the handler answers the invalid job data error
    exactly when the job is missing or its latitude, longitude or radius is
    null or zero: a site on the equator or on the prime meridian is rejected
    like a missing one. *)
Theorem handler_rejects_zero_coordinates (tz : Z)
    (calculateDistance : number -> number -> number -> number -> number)
    (now : Z) (db : Db) (payload : LocationPayload) (ce : ClockEntry) :
  findOpenEntry db payload = Some ce ->
  r_status (fst (handler tz calculateDistance now db payload))
  = st_invalid_job_data
  <-> match jobOf db ce with
      | None => True
      | Some j => zeroOrNull (j_latitude j) \/ zeroOrNull (j_longitude j)
                  \/ zeroOrNull (geofence_radius j)
      end.
Proof.
  intro He. rewrite <- validJob_None_iff.
  destruct (validJob (jobOf db ce)) as [[[[job lat] lng] radius]|] eqn:V.
  - split; [|discriminate]. intro H. exfalso. revert H.
    destruct (geofence_enabled job) as [[|]|] eqn:Hg.
    2: { unfold handler. rewrite He, V, Hg. discriminate. }
    all: assert (Hg' : geofence_enabled job <> Some false)
           by (rewrite Hg; discriminate).
    all: pose proof (handler_run tz calculateDistance now db payload ce job
                       lat lng radius He V Hg') as R.
    all: cbv zeta in R.
    all: destruct (if is_overtime ce then None
                   else windowGate tz now db payload ce)
           as [[st http]|] eqn:G.
    all: try (destruct (reliableExit _ _ _ _);
              destruct R as [R _]; rewrite R; discriminate).
    all: destruct R as [R _]; rewrite R.
    all: destruct (is_overtime ce); [discriminate G|].
    all: apply windowGate_status in G;
         destruct G as [-> | [-> | ->]]; discriminate.
  - split; [reflexivity|]. intros _.
    unfold handler. rewrite He, V. reflexivity.
Qed.

(** A site on the equator. *)
Definition demoEquatorDb : Db :=
  {| clock_entries := [demoEntry]; geofence_events := [];
     notifications := []; notification_log := [];
     jobs := [ {| j_id := "job-1"; j_latitude := Some 0%Q;
                  j_longitude := Some (3682 # 100);
                  geofence_radius := Some 100%Q;
                  geofence_enabled := Some true |} ];
     workers := [demoWorker]; next_event_id := 1 |}.

Lemma handler_rejects_zero_coordinates_witness :
  r_status (fst (handler demoTz demoNear demo1630 demoEquatorDb
                         (demoPayload demo1630)))
  = st_invalid_job_data.
Proof.
  apply (proj2 (handler_rejects_zero_coordinates
                  demoTz demoNear demo1630 demoEquatorDb
                  (demoPayload demo1630) demoEntry eq_refl)).
  simpl. left. reflexivity.
Defined.

End TrackLocationFacts.

(** * Further properties of check-grace-expiry *)

Module CheckGraceExpiryFacts.

Import CheckGraceExpiry.

Lemma deleteExit_events (db : Db) (exit e : GeofenceEvent) :
  In e (geofence_events (deleteExit db exit)) -> In e (geofence_events db).
Proof.
  simpl. unfold delete_where. intro H. apply filter_In in H. tauto.
Qed.

(** The loop body creates no [exit_detected] row. *)
Lemma processExit_no_new_exit (now : Z) (db : Db) (exit e : GeofenceEvent) :
  In e (geofence_events (processExit now db exit)) ->
  event_type e = exit_detected ->
  In e (geofence_events db).
Proof.
  unfold processExit.
  destruct (existingEvents db exit);
    [|intros H _; exact (deleteExit_events db exit e H)].
  destruct (existsb backInside (recentFixes db exit)).
  { intros H Ht. apply deleteExit_events in H. simpl in H.
    apply in_app_or in H. destruct H as [H | [<- | []]]; [exact H|].
    discriminate Ht. }
  destruct (single _) as [c|]; [|auto].
  destruct (is_overtime c); [auto|].
  destruct (_ && _); [auto|].
  intros H Ht. simpl in H. unfold delete_where in H.
  apply filter_In in H. destruct H as [H _].
  apply in_app_or in H. destruct H as [H | [<- | []]]; [exact H|].
  discriminate Ht.
Qed.

Lemma loop_no_new_exit (now : Z) (exits : list GeofenceEvent) (db : Db)
    (e : GeofenceEvent) :
  In e (geofence_events (fold_left (processExit now) exits db)) ->
  event_type e = exit_detected ->
  In e (geofence_events db).
Proof.
  revert db. induction exits as [|x exits IH]; simpl; intros db H Ht.
  - exact H.
  - apply (processExit_no_new_exit now db x e); [|exact Ht].
    apply IH; assumption.
Qed.

(** Housekeeping: after a sweep no [exit_detected] row older than 24 hours
    is left in the table. *)
Theorem sweep_purges_stale_exits (now : Z) (db : Db) (e : GeofenceEvent) :
  In e (geofence_events (snd (sweep now db))) ->
  event_type e = exit_detected ->
  now - 24 * 60 * 60 * 1000 <= timestamp e.
Proof.
  intros H Ht. unfold sweep in H. cbv zeta in H.
  match type of H with
  | context [match ?l with [] => _ | _ :: _ => _ end] => destruct l
  end; cbn [snd] in H; [|apply loop_no_new_exit in H; [|exact Ht]];
    simpl in H; unfold delete_where in H; apply filter_In in H;
    destruct H as [_ H]; unfold has_type in H; rewrite Ht in H; simpl in H;
    apply negb_true_iff, Z.ltb_ge in H; exact H.
Qed.

Lemma sweep_purges_stale_exits_witness :
  demoNow - 24 * 60 * 60 * 1000 <= timestamp demoExit.
Proof.
  apply (sweep_purges_stale_exits demoNow (demoStore true [demoExit]) demoExit).
  - vm_compute. left. reflexivity.
  - reflexivity.
Defined.

(** The grace period is respected: when every [exit_detected] row is at
    most [AUTO_DELAY_MS] (five minutes) old, the sweep answers
    [no_pending_exits] and leaves the store as it is. *)
Theorem sweep_waits_for_grace (now : Z) (db : Db) :
  (forall e, In e (geofence_events db) ->
             event_type e = exit_detected ->
             now - AUTO_DELAY_MS <= timestamp e) ->
  sweep now db = (no_pending_exits, db).
Proof.
  intro H. unfold sweep. cbv zeta.
  assert (D : forall e, In e (geofence_events db) ->
                        has_type exit_detected e = true ->
                        now - AUTO_DELAY_MS <= timestamp e).
  { intros e He Ht. apply H; [exact He|].
    apply EventType_eqb_eq. exact Ht. }
  rewrite delete_where_none.
  2: { intros e He. destruct (has_type exit_detected e) eqn:Ht; [|reflexivity].
       specialize (D e He Ht). simpl. apply Z.ltb_ge.
       unfold AUTO_DELAY_MS, GRACE_MINUTES, RACE_BUFFER_SEC in D. lia. }
  rewrite set_geofence_events_same.
  rewrite filter_none; [reflexivity|].
  intros e He. destruct (has_type exit_detected e) eqn:Ht; [|reflexivity].
  specialize (D e He Ht). simpl.
  replace (timestamp e <? now - AUTO_DELAY_MS) with false; [reflexivity|].
  symmetry. apply Z.ltb_ge. exact D.
Qed.

Lemma sweep_waits_for_grace_witness :
  sweep (demoT1 + 4 * 60 * 1000) (demoStore false [demoExit])
  = (no_pending_exits, demoStore false [demoExit]).
Proof.
  apply sweep_waits_for_grace.
  intros e [<- | []] _. vm_compute. discriminate.
Defined.

Lemma loop_keeps_closed (now : Z) (exits : list GeofenceEvent) (db : Db)
    (i : nat) (ce : ClockEntry) :
  nth_error (clock_entries db) i = Some ce ->
  clock_out ce <> None ->
  nth_error (clock_entries (fold_left (processExit now) exits db)) i = Some ce.
Proof.
  revert db. induction exits as [|e exits IH]; simpl; intros db Hi Hout.
  - exact Hi.
  - apply IH; [|exact Hout]. apply processExit_keeps_closed; assumption.
Qed.

(** A session that is already closed, by hand or automatically, is never
    rewritten by a sweep: its row (clock-out time, hours, flags) is the same
    after the sweep, however many pending exits refer to it. *)
Theorem sweep_keeps_closed_sessions (now : Z) (db : Db) (i : nat)
    (ce : ClockEntry) :
  nth_error (clock_entries db) i = Some ce ->
  clock_out ce <> None ->
  nth_error (clock_entries (snd (sweep now db))) i = Some ce.
Proof.
  intros Hi Hout. unfold sweep. cbv zeta.
  match goal with
  | |- context [match ?l with [] => _ | _ :: _ => _ end] => destruct l
  end.
  - exact Hi.
  - cbn [snd]. apply loop_keeps_closed; [exact Hi | exact Hout].
Qed.

(** The session of the demo, closed by hand at 16:45. *)
Definition demoClosedStore : Db :=
  {| clock_entries :=
       [ {| ce_id := "entry-1"; ce_worker_id := "worker-1";
            ce_job_id := "job-1";
            clock_in := demoT0; clock_out := Some (demoT1 + 5 * 60 * 1000);
            clock_out_lat := None; clock_out_lng := None;
            is_overtime := false; auto_clocked_out := false;
            auto_clockout_type := None; auto_clockout_reason := None;
            total_hours := Some (77 # 10); geofence_exit_data := None;
            status := None |} ];
     geofence_events := [demoExit];
     notifications := []; notification_log := [];
     jobs := []; workers := []; next_event_id := 10 |}.

Lemma sweep_keeps_closed_sessions_witness :
  nth_error (clock_entries (snd (sweep demoNow demoClosedStore))) 0
  = nth_error (clock_entries demoClosedStore) 0.
Proof.
  apply (sweep_keeps_closed_sessions demoNow demoClosedStore 0).
  - reflexivity.
  - discriminate.
Defined.

(** The condition under which the loop body closes a session. *)
Definition closable (db : Db) (exit : GeofenceEvent) : Prop :=
  existingEvents db exit = []
  /\ existsb backInside (recentFixes db exit) = false
  /\ exists ce,
      single (filter (entryOf exit) (clock_entries db)) = Some ce
      /\ is_overtime ce = false
      /\ clock_out ce = None.

(** The loop body changes the session table exactly when the exit's session
    has no [re_entry] or [exit_confirmed] row, no later fix shows the worker
    back inside, and the session is found, regular and still open.  In every
    other case (earlier re-entry, return, missing or overtime session,
    session closed by hand or automatically) no session is touched. *)
Theorem processExit_closes_iff (now : Z) (db : Db) (exit : GeofenceEvent) :
  clock_entries (processExit now db exit) <> clock_entries db
  <-> closable db exit.
Proof.
  unfold closable. split.
  - unfold processExit.
    destruct (existingEvents db exit) as [|x l];
      [|intro H; exfalso; apply H; reflexivity].
    destruct (existsb backInside (recentFixes db exit));
      [intro H; exfalso; apply H; reflexivity|].
    destruct (single _) as [c|] eqn:S;
      [|intro H; exfalso; apply H; reflexivity].
    destruct (is_overtime c) eqn:Hot;
      [intro H; exfalso; apply H; reflexivity|].
    destruct (clock_out c) as [t|] eqn:Hout.
    + intro H. exfalso. apply H.
      destruct (_ && _); [reflexivity|]. simpl clock_entries.
      apply update_where_none. intros r Hr.
      destruct (entryOf exit r) eqn:E; [|reflexivity].
      apply single_Some in S.
      assert (Hin : In r (filter (entryOf exit) (clock_entries db)))
        by (apply filter_In; split; assumption).
      rewrite S in Hin. destruct Hin as [<- | []].
      rewrite Hout. reflexivity.
    + intros _. repeat split. exists c. repeat split; assumption.
  - intros (Hev & Hfix & ce & Hce & Hot & Hout).
    destruct (processExit_finalize now db exit ce Hev Hfix Hce Hot Hout)
      as (l1 & l2 & Hl & _ & _ & Hp).
    cbv zeta in Hp. rewrite Hp, Hl. simpl clock_entries.
    intro H. apply app_inv_head in H. inversion H as [H'].
    apply (f_equal clock_out) in H'. simpl in H'. congruence.
Qed.

(** What the loop body notifies: one notification when the exit's session
    has no [re_entry] or [exit_confirmed] row, no later fix shows the worker
    back inside, and the session is found, regular and either open or
    already closed automatically; none otherwise.  A session that was
    already closed automatically is thus notified although its row is not
    changed. *)
Theorem processExit_notifies (now : Z) (db : Db) (exit : GeofenceEvent) :
  let notifiable :=
    existingEvents db exit = []
    /\ existsb backInside (recentFixes db exit) = false
    /\ exists ce,
        single (filter (entryOf exit) (clock_entries db)) = Some ce
        /\ is_overtime ce = false
        /\ (clock_out ce = None \/ auto_clocked_out ce = true) in
  (notifiable ->
   notifications (processExit now db exit)
   = notifications db ++ [notificationFor now exit (timestamp exit)])
  /\ (~ notifiable ->
      notifications (processExit now db exit) = notifications db).
Proof.
  cbv zeta. unfold processExit. split.
  - intros (Hev & Hfix & ce & Hce & Hot & Hc).
    rewrite Hev, Hfix, Hce, Hot.
    destruct Hc as [Hc | Hc]; rewrite Hc.
    + reflexivity.
    + rewrite andb_false_r. reflexivity.
  - intro Hn.
    destruct (existingEvents db exit) as [|x l]; [|reflexivity].
    destruct (existsb backInside (recentFixes db exit)); [reflexivity|].
    destruct (single _) as [c|] eqn:S; [|reflexivity].
    destruct (is_overtime c) eqn:Hot; [reflexivity|].
    destruct (clock_out c) as [t|] eqn:Hout;
      destruct (auto_clocked_out c) eqn:Ha; try reflexivity.
    all: exfalso; apply Hn; repeat split; exists c; repeat split; auto.
Qed.

Lemma processExit_notifies_witness :
  notifications (processExit demoNow (demoStore false [demoExit]) demoExit)
  = [notificationFor demoNow demoExit demoT1].
Proof.
  apply (proj1 (processExit_notifies demoNow (demoStore false [demoExit])
                  demoExit)).
  repeat split. exists (demoSession false). repeat split. left. reflexivity.
Defined.

Lemma processExit_adds_at_most_one (now : Z) (db : Db) (exit : GeofenceEvent) :
  exists added,
    notifications (processExit now db exit) = notifications db ++ added
    /\ (length added <= 1)%nat
    /\ Forall (fun n => n_type n = "geofence_auto_clockout"%string) added.
Proof.
  unfold processExit.
  assert (Z0 : exists added,
             notifications db = notifications db ++ added
             /\ (length added <= 1)%nat
             /\ Forall (fun n => n_type n = "geofence_auto_clockout"%string)
                       added).
  { exists []. rewrite app_nil_r. simpl. repeat split; [lia | constructor]. }
  destruct (existingEvents db exit) as [|x l]; [|exact Z0].
  destruct (existsb backInside (recentFixes db exit)); [exact Z0|].
  destruct (single _) as [c|]; [|exact Z0].
  destruct (is_overtime c); [exact Z0|].
  destruct (_ && _); [exact Z0|].
  eexists. simpl. split; [reflexivity|]. simpl.
  split; [lia|]. repeat constructor.
Qed.

(** A sweep writes at most one notification per expired exit it reviews,
    all of type [geofence_auto_clockout], and keeps the notifications that
    were there. *)
Theorem sweep_notification_bound (now : Z) (db : Db) :
  exists added,
    notifications (snd (sweep now db)) = notifications db ++ added
    /\ (length added
        <= match fst (sweep now db) with
           | no_pending_exits => 0
           | processed count => count
           end)%nat
    /\ Forall (fun n => n_type n = "geofence_auto_clockout"%string) added.
Proof.
  unfold sweep. cbv zeta.
  set (db0 := set_geofence_events db _).
  assert (L : forall exits d,
             exists added,
               notifications (fold_left (processExit now) exits d)
               = notifications d ++ added
               /\ (length added <= length exits)%nat
               /\ Forall (fun n => n_type n = "geofence_auto_clockout"%string)
                         added).
  { induction exits as [|x exits IH]; intro d; simpl.
    - exists []. rewrite app_nil_r. simpl. repeat split; [lia | constructor].
    - destruct (IH (processExit now d x)) as (a2 & E2 & L2 & F2).
      destruct (processExit_adds_at_most_one now d x) as (a1 & E1 & L1 & F1).
      exists (a1 ++ a2). rewrite E2, E1, app_assoc.
      split; [reflexivity|]. rewrite length_app.
      split; [lia|]. apply Forall_app. split; assumption. }
  destruct (filter _ (geofence_events db0)) as [|g l] eqn:E.
  - exists []. simpl. rewrite app_nil_r. repeat split; [lia | constructor].
  - cbn [fst snd]. exact (L (g :: l) db0).
Qed.

End CheckGraceExpiryFacts.

(** * Further properties of the overtime sweeps *)

Module OvertimeFacts.

Import CheckOtAutoclockout.

(** ** The order of the exit events *)

Lemma insertDesc_In (e x : GeofenceEvent) (l : list GeofenceEvent) :
  In x (insertDesc e l) <-> x = e \/ In x l.
Proof.
  induction l as [|a l IH]; simpl.
  - intuition congruence.
  - destruct (timestamp a <=? timestamp e); simpl.
    + intuition congruence.
    + rewrite IH. intuition congruence.
Qed.

Lemma orderByTimestampDesc_In (x : GeofenceEvent) (l : list GeofenceEvent) :
  In x (orderByTimestampDesc l) <-> In x l.
Proof.
  induction l as [|a l IH]; simpl; [tauto|].
  rewrite insertDesc_In, IH. intuition congruence.
Qed.

(** Every row is at most as late as the rows before it. *)
Fixpoint descending (l : list GeofenceEvent) : Prop :=
  match l with
  | [] => True
  | a :: r => (forall x, In x r -> timestamp x <= timestamp a) /\ descending r
  end.

Lemma insertDesc_descending (e : GeofenceEvent) (l : list GeofenceEvent) :
  descending l -> descending (insertDesc e l).
Proof.
  induction l as [|a l IH]; simpl; intro H.
  - split; [intros x []|exact I].
  - destruct H as [Ha Hl].
    destruct (timestamp a <=? timestamp e) eqn:E.
    + apply Z.leb_le in E. simpl. split; [|split; assumption].
      intros x [<- | Hx]; [exact E|]. specialize (Ha x Hx). lia.
    + apply Z.leb_gt in E. simpl. split; [|apply IH; exact Hl].
      intros x Hx. apply insertDesc_In in Hx.
      destruct Hx as [-> | Hx]; [lia | apply Ha; exact Hx].
Qed.

Lemma orderByTimestampDesc_descending (l : list GeofenceEvent) :
  descending (orderByTimestampDesc l).
Proof.
  induction l as [|a l IH]; simpl; [exact I|].
  apply insertDesc_descending. exact IH.
Qed.

Lemma descending_last (l : list GeofenceEvent) (e : GeofenceEvent) :
  descending l ->
  nth_error l (length l - 1) = Some e ->
  In e l /\ forall x, In x l -> timestamp e <= timestamp x.
Proof.
  induction l as [|a l IH]; simpl; intros H Hn; [discriminate|].
  destruct H as [Ha Hl].
  destruct l as [|b r].
  - simpl in Hn. inversion Hn; subst. split; [now left|].
    intros x [<- | []]. lia.
  - simpl in Hn. rewrite ?Nat.sub_0_r in Hn.
    assert (Hn' : nth_error (b :: r) (length (b :: r) - 1) = Some e)
      by (simpl; rewrite Nat.sub_0_r; exact Hn).
    destruct (IH Hl Hn') as [Hin Hmin]. split; [now right|].
    intros x [<- | Hx]; [apply Ha; exact Hin | apply Hmin; exact Hx].
Qed.

(** The row the sweeps take as "first exit event", the last one of the
    rows ordered by descending timestamp, is the earliest of the rows: it
    exists when there is any row, it is one of them, and no row has a
    smaller timestamp. *)
Theorem first_exit_is_earliest (l : list GeofenceEvent) :
  l <> [] ->
  exists e,
    nth_error (orderByTimestampDesc l)
              (length (orderByTimestampDesc l) - 1) = Some e
    /\ In e l
    /\ forall x, In x l -> timestamp e <= timestamp x.
Proof.
  intro Hne.
  destruct (nth_error (orderByTimestampDesc l)
                      (length (orderByTimestampDesc l) - 1)) as [e|] eqn:E.
  - exists e. split; [reflexivity|].
    destruct (descending_last _ e (orderByTimestampDesc_descending l) E)
      as [Hin Hmin].
    split; [apply orderByTimestampDesc_In; exact Hin|].
    intros x Hx. apply Hmin. apply orderByTimestampDesc_In. exact Hx.
  - exfalso. apply nth_error_None in E.
    destruct l as [|a l]; [now apply Hne|].
    assert (Hin : In a (orderByTimestampDesc (a :: l)))
      by (apply orderByTimestampDesc_In; now left).
    destruct (orderByTimestampDesc (a :: l)); [destruct Hin|].
    simpl in E. lia.
Qed.

Lemma first_exit_is_earliest_witness :
  exists e,
    nth_error (orderByTimestampDesc
                 [CheckGraceExpiry.demoExit; CheckGraceExpiry.demoReturn])
              1 = Some e
    /\ timestamp e <= timestamp CheckGraceExpiry.demoReturn.
Proof.
  destruct (first_exit_is_earliest
              [CheckGraceExpiry.demoExit; CheckGraceExpiry.demoReturn])
    as (e & H1 & _ & H3); [discriminate|].
  exists e. split; [exact H1|]. apply H3. right. left. reflexivity.
Defined.

(** ** check-ot-autoclockout *)

(** [autoClockOut] resolves every pending exit of the entry: afterwards the
    entry has no unresolved [exit_detected] row, and every event row that
    was not such a row keeps its place and content. *)
Theorem autoClockOut_resolves_exits (now : Z) (db : Db) (entry : ActiveOT)
    (reason : string) :
  let db' := autoClockOut now db entry reason in
  filter (unresolvedExit (a_id entry)) (geofence_events db') = []
  /\ (forall i e,
         nth_error (geofence_events db) i = Some e ->
         unresolvedExit (a_id entry) e = false ->
         nth_error (geofence_events db') i = Some e)
  /\ (forall i e,
         nth_error (geofence_events db) i = Some e ->
         unresolvedExit (a_id entry) e = true ->
         exists e',
           nth_error (geofence_events db') i = Some e'
           /\ resolved_at e' = Some now /\ ev_id e' = ev_id e
           /\ timestamp e' = timestamp e).
Proof.
  cbv zeta. unfold autoClockOut. simpl geofence_events. unfold update_where.
  split; [|split].
  - apply filter_none. intros r Hr. apply in_map_iff in Hr.
    destruct Hr as (x & <- & _).
    destruct (unresolvedExit (a_id entry) x) eqn:E; [|exact E].
    unfold unresolvedExit. simpl. apply andb_false_r.
  - intros i e Hi He. rewrite nth_error_map, Hi. simpl. rewrite He.
    reflexivity.
  - intros i e Hi He. rewrite nth_error_map, Hi. simpl. rewrite He.
    eexists. split; [reflexivity|]. repeat split.
Qed.

Section Sweep.

Variable toLocaleTimeString : Z -> string.

(** The entry is neither past the limit nor past the grace period of an
    exit. *)
Definition quiet (now : Z) (db : Db) (entry : ActiveOT) : Prop :=
  (hoursBetween now (a_clock_in entry) < 3)%Q
  /\ forall e, In e (geofence_events db) ->
               unresolvedExit (a_id entry) e = true ->
               now - timestamp e < GRACE_PERIOD_MINUTES * 60 * 1000.

Lemma checkEntry_quiet (now : Z) (n : nat) (db : Db) (entry : ActiveOT) :
  quiet now db entry ->
  checkEntry toLocaleTimeString now (n, db) entry = (n, db).
Proof.
  intros [Hh Hq]. unfold checkEntry.
  set (l := filter (unresolvedExit (a_id entry)) (geofence_events db)).
  destruct (nth_error (orderByTimestampDesc l)
                      (length (orderByTimestampDesc l) - 1)) as [e|] eqn:E.
  - apply nth_error_In in E.
    apply (proj1 (orderByTimestampDesc_In e l)) in E.
    unfold l in E. apply filter_In in E. destruct E as [E1 E2].
    specialize (Hq e E1 E2). cbv zeta.
    replace (GRACE_PERIOD_MINUTES * 60 * 1000 <=? now - timestamp e)
      with false by (symmetry; apply Z.leb_gt; exact Hq).
    unfold MAX_OT_HOURS.
    replace (Qle_bool 3 (hoursBetween now (a_clock_in entry))) with false
      by (symmetry; apply Qle_bool_false_iff; exact Hh).
    reflexivity.
  - unfold MAX_OT_HOURS.
    replace (Qle_bool 3 (hoursBetween now (a_clock_in entry))) with false
      by (symmetry; apply Qle_bool_false_iff; exact Hh).
    reflexivity.
Qed.

(** The sweep leaves the store alone while nothing is due: when every
    active overtime session is under three hours and has no unresolved exit
    older than the grace period of five minutes, the sweep closes nothing
    and the store is unchanged. *)
Theorem sweep_idle (now : Z) (db : Db) :
  (forall ce, In ce (clock_entries db) ->
              is_overtime ce = true -> clock_out ce = None ->
              quiet now db (activeOT ce)) ->
  sweep toLocaleTimeString now db = (0%nat, db).
Proof.
  intro H. unfold sweep.
  assert (Q : forall entry,
             In entry (map activeOT
                         (filter (fun ce => is_overtime ce
                                            && isNull (clock_out ce))
                                 (clock_entries db))) ->
             quiet now db entry).
  { intros entry Hin. apply in_map_iff in Hin.
    destruct Hin as (ce & <- & Hce). apply filter_In in Hce.
    destruct Hce as [Hce Hact]. apply andb_true_iff in Hact.
    destruct Hact as [Ho Hc]. apply H; [exact Hce | exact Ho|].
    destruct (clock_out ce); [discriminate Hc | reflexivity]. }
  revert Q. generalize (map activeOT
                          (filter (fun ce => is_overtime ce
                                             && isNull (clock_out ce))
                                  (clock_entries db))).
  intros l Q. induction l as [|entry l IH]; cbn [fold_left]; [reflexivity|].
  rewrite checkEntry_quiet by (apply Q; now left).
  apply IH. intros e He. apply Q. now right.
Qed.

Lemma ids_identify (l : list ClockEntry) (x y : ClockEntry) :
  NoDup (map ce_id l) -> In x l -> In y l -> ce_id x = ce_id y -> x = y.
Proof.
  induction l as [|a l IH]; simpl; intros Hnd Hx Hy Hid; [destruct Hx|].
  inversion Hnd as [|? ? Hna Hnd']; subst.
  destruct Hx as [<- | Hx], Hy as [<- | Hy].
  - reflexivity.
  - exfalso. apply Hna. rewrite Hid. apply in_map. exact Hy.
  - exfalso. apply Hna. rewrite <- Hid. apply in_map. exact Hx.
  - apply IH; assumption.
Qed.

Lemma checkEntry_keeps_other (now : Z) (acc : nat * Db) (entry : ActiveOT)
    (i : nat) (ce : ClockEntry) :
  nth_error (clock_entries (snd acc)) i = Some ce ->
  ce_id ce <> a_id entry ->
  nth_error (clock_entries
               (snd (checkEntry toLocaleTimeString now acc entry))) i
  = Some ce.
Proof.
  intros Hi Hid. destruct acc as [n db]. simpl in Hi.
  assert (K : forall reason,
             nth_error (clock_entries (autoClockOut now db entry reason)) i
             = Some ce).
  { intro reason. unfold autoClockOut. simpl clock_entries.
    unfold update_where. rewrite nth_error_map, Hi. simpl.
    destruct (String.eqb_spec (ce_id ce) (a_id entry)) as [E|E];
      [contradiction | reflexivity]. }
  unfold checkEntry.
  destruct (match nth_error _ _ with Some _ => _ | None => _ end);
    [apply K|].
  destruct (Qle_bool _ _); [apply K | exact Hi].
Qed.

(** Within one sweep only the sessions selected as active are written: with
    unique entry ids, a session that is not an open overtime session (a
    regular one, or one already closed) has the same row after the sweep. *)
Theorem sweep_writes_only_active (now : Z) (db : Db) (i : nat)
    (ce : ClockEntry) :
  NoDup (map ce_id (clock_entries db)) ->
  nth_error (clock_entries db) i = Some ce ->
  is_overtime ce = false \/ clock_out ce <> None ->
  nth_error (clock_entries (snd (sweep toLocaleTimeString now db))) i
  = Some ce.
Proof.
  intros Hnd Hi Hna. unfold sweep.
  assert (Hids : forall entry,
             In entry (map activeOT
                         (filter (fun c => is_overtime c
                                           && isNull (clock_out c))
                                 (clock_entries db))) ->
             ce_id ce <> a_id entry).
  { intros entry Hin Heq. apply in_map_iff in Hin.
    destruct Hin as (c & <- & Hc). apply filter_In in Hc.
    destruct Hc as [Hc Hact]. simpl in Heq.
    assert (ce = c)
      by (apply (ids_identify (clock_entries db)); try assumption;
          eapply nth_error_In; exact Hi).
    subst c. apply andb_true_iff in Hact. destruct Hact as [Ho Hcl].
    destruct Hna as [Hna | Hna]; [congruence|].
    destruct (clock_out ce); [discriminate Hcl | now apply Hna]. }
  assert (L : forall l acc,
             (forall entry, In entry l -> ce_id ce <> a_id entry) ->
             nth_error (clock_entries (snd acc)) i = Some ce ->
             nth_error
               (clock_entries
                  (snd (fold_left (checkEntry toLocaleTimeString now) l acc)))
               i = Some ce).
  { induction l as [|entry l IH]; simpl; intros acc Hl Hacc; [exact Hacc|].
    apply IH; [intros e He; apply Hl; now right|].
    apply checkEntry_keeps_other; [exact Hacc | apply Hl; now left]. }
  apply L; [exact Hids | exact Hi].
Qed.

End Sweep.

(** Two overtime sessions, one open for two hours and one already closed,
    and a regular session. *)
Definition demoSessions : Db :=
  {| clock_entries :=
       [ OvertimeMonitor.otSession None None;
         {| ce_id := "ot-0"; ce_worker_id := "worker-2"; ce_job_id := "job-1";
            clock_in := OvertimeMonitor.demoT0 - 24 * MS_PER_HOUR;
            clock_out := Some (OvertimeMonitor.demoT0 - 22 * MS_PER_HOUR);
            clock_out_lat := None; clock_out_lng := None;
            is_overtime := true; auto_clocked_out := false;
            auto_clockout_type := None; auto_clockout_reason := None;
            total_hours := Some 2%Q; geofence_exit_data := None;
            status := None |};
         CheckGraceExpiry.demoSession false ];
     geofence_events := []; notifications := []; notification_log := [];
     jobs := []; workers := []; next_event_id := 1 |}.

Definition demo2h : Z := OvertimeMonitor.demoT0 + 2 * MS_PER_HOUR.

Lemma sweep_idle_witness :
  sweep OvertimeMonitor.demoFormat demo2h demoSessions = (0%nat, demoSessions).
Proof.
  apply sweep_idle.
  intros ce [<- | [<- | [<- | []]]] Ho Hc; try discriminate.
  split; [reflexivity|]. intros e [].
Defined.

Lemma sweep_writes_only_active_witness :
  nth_error (clock_entries
               (snd (sweep OvertimeMonitor.demoFormat
                           OvertimeMonitor.demo4h30 demoSessions))) 1
  = nth_error (clock_entries demoSessions) 1.
Proof.
  apply (sweep_writes_only_active OvertimeMonitor.demoFormat
           OvertimeMonitor.demo4h30 demoSessions 1).
  - repeat constructor; simpl; intuition discriminate.
  - reflexivity.
  - right. discriminate.
Defined.

(** ** check-clock-status *)

Lemma autoClockOutOT_row (now : Z) (db : Db) (ot : ClockEntry) (date : Z)
    (reason : CheckClockStatus.Reason) (forcedHours : option number)
    (i : nat) (ce : ClockEntry) :
  nth_error (clock_entries db) i = Some ce ->
  ce_id ce = ce_id ot ->
  exists h,
    nth_error (clock_entries
                 (CheckClockStatus.autoClockOutOT now db ot date reason
                                                  forcedHours)) i
    = Some (CheckClockStatus.clockOutUpdate now reason h ce)
    /\ h = (let totalHrs :=
              match forcedHours with
              | Some f => f
              | None => Qmax 0 (hoursBetween now (clock_in ot))
              end in
            if Qlt_bool 3 totalHrs then 3%Q else totalHrs).
Proof.
  intros Hi Hid. eexists. split; [|reflexivity].
  unfold CheckClockStatus.autoClockOutOT. cbv zeta.
  simpl clock_entries.
  rewrite OvertimeMonitor.sendNotification_clock_entries.
  simpl clock_entries. unfold update_where.
  rewrite nth_error_map, Hi. simpl. rewrite Hid, String.eqb_refl.
  reflexivity.
Qed.

(** The overtime part of check-clock-status closes every session it visits
    at or past three hours, and records exactly three hours for it, whether
    the session is closed for a site exit or for the time limit. *)
Theorem checkSession_closes_at_limit (now date : Z) (n : nat) (db : Db)
    (ot : ClockEntry) (i : nat) (ce : ClockEntry) :
  (3 <= hoursBetween now (clock_in ot))%Q ->
  nth_error (clock_entries db) i = Some ce ->
  ce_id ce = ce_id ot ->
  let r := CheckClockStatus.checkSession now date (n, db) ot in
  fst r = S n
  /\ exists ce' h,
      nth_error (clock_entries (snd r)) i = Some ce'
      /\ clock_out ce' = Some now
      /\ auto_clocked_out ce' = true
      /\ total_hours ce' = Some h
      /\ (h == 3)%Q.
Proof.
  intros Hh Hi Hid. cbv zeta. unfold CheckClockStatus.checkSession.
  set (hrs := hoursBetween now (clock_in ot)) in *.
  assert (Hb : Qle_bool 3 hrs = true) by (apply Qle_bool_iff; exact Hh).
  destruct (match nth_error _ _ with Some _ => _ | None => _ end)
    as [exitTime|].
  - destruct (autoClockOutOT_row now db ot date
                (CheckClockStatus.LeftSite exitTime) (Some hrs) i ce Hi Hid)
      as (h & Hrow & Hv).
    split; [reflexivity|]. do 2 eexists. cbn [snd].
    split; [exact Hrow|]. simpl. repeat split.
    rewrite Hv. cbv zeta.
    destruct (Qlt_bool 3 hrs) eqn:C; [reflexivity|].
    unfold Qlt_bool in C. apply negb_false_iff, Qle_bool_iff in C.
    apply Qle_antisym; assumption.
  - rewrite Hb. cbn [andb].
    assert (K : forall reason,
               exists ce' h,
                 nth_error (clock_entries
                              (CheckClockStatus.autoClockOutOT
                                 now db ot date reason (Some 3%Q))) i
                 = Some ce'
                 /\ clock_out ce' = Some now
                 /\ auto_clocked_out ce' = true
                 /\ total_hours ce' = Some h
                 /\ (h == 3)%Q).
    { intro reason.
      destruct (autoClockOutOT_row now db ot date reason (Some 3%Q) i ce
                  Hi Hid) as (h & Hrow & Hv).
      do 2 eexists. split; [exact Hrow|]. simpl. repeat split.
      rewrite Hv. reflexivity. }
    destruct (Qle_bool hrs (3167 # 1000)) eqn:C.
    + split; [reflexivity | apply K].
    + unfold Qlt_bool. rewrite C. cbn [negb].
      split; [reflexivity | apply K].
Qed.

Lemma checkSession_closes_at_limit_witness :
  fst (CheckClockStatus.checkSession
         OvertimeMonitor.demo4h30 OvertimeMonitor.demo4h30
         (0%nat, demoSessions) (OvertimeMonitor.otSession None None))
  = 1%nat.
Proof.
  apply (checkSession_closes_at_limit
           OvertimeMonitor.demo4h30 OvertimeMonitor.demo4h30 0 demoSessions
           (OvertimeMonitor.otSession None None) 0
           (OvertimeMonitor.otSession None None)).
  - unfold Qle. vm_compute. discriminate.
  - reflexivity.
  - reflexivity.
Defined.

Lemma DedupeKey_eqb_refl (k : DedupeKey) : DedupeKey_eqb k k = true.
Proof.
  destruct k; simpl; rewrite ?String.eqb_refl, ?Z.eqb_refl; reflexivity.
Qed.

Lemma maybeSingle_length {A} (l : list A) :
  (exists x, maybeSingle l = Some x) <-> length l = 1%nat.
Proof.
  destruct l as [|a [|b t]]; simpl; split;
    try (intros [x H]; discriminate H); try discriminate;
    try reflexivity.
  intros _. exists a. reflexivity.
Qed.

(** The dedupe check of [sendNotification]: with exactly one notification
    under the key nothing is inserted; otherwise (none, or several, in which
    case the single-row lookup fails) a notification is appended.  Hence
    sending twice in a row inserts once, unless the key was already
    duplicated. *)
Theorem sendNotification_dedupe (now now' : Z) (db : Db)
    (id title type : string) (date : Z) :
  let key := WorkerDateType id (isoDate date) type in
  let count d :=
    length (filter (fun n => DedupeKey_eqb (dedupe_key n) key)
                   (notifications d)) in
  let db' := CheckClockStatus.sendNotification now db id title type date in
  (count db = 1%nat -> db' = db)
  /\ (count db <> 1%nat ->
      count db' = S (count db)
      /\ notifications db'
         = notifications db
             ++ [ {| n_worker_id := id; n_title := title; n_type := type;
                     dedupe_key := key; created_at := now |} ])
  /\ ((count db <= 1)%nat ->
      CheckClockStatus.sendNotification now' db' id title type date = db').
Proof.
  cbv zeta.
  set (key := WorkerDateType id (isoDate date) type).
  set (p := fun n => DedupeKey_eqb (dedupe_key n) key).
  assert (A : length (filter p (notifications db)) = 1%nat ->
              CheckClockStatus.sendNotification now db id title type date
              = db).
  { intro H. unfold CheckClockStatus.sendNotification. fold key. fold p.
    apply maybeSingle_length in H. destruct H as [x ->]. reflexivity. }
  assert (B : length (filter p (notifications db)) <> 1%nat ->
              CheckClockStatus.sendNotification now db id title type date
              = insert_notification db
                  {| n_worker_id := id; n_title := title; n_type := type;
                     dedupe_key := key; created_at := now |}).
  { intro H. unfold CheckClockStatus.sendNotification. fold key. fold p.
    destruct (maybeSingle (filter p (notifications db))) as [x|] eqn:E;
      [|reflexivity].
    exfalso. apply H. apply maybeSingle_length. exists x. exact E. }
  assert (C : length (filter p (notifications db)) <> 1%nat ->
              length (filter p
                        (notifications
                           (CheckClockStatus.sendNotification
                              now db id title type date)))
              = S (length (filter p (notifications db)))).
  { intro H. rewrite (B H).
    assert (Pn : p {| n_worker_id := id; n_title := title; n_type := type;
                      dedupe_key := key; created_at := now |} = true)
      by (unfold p; apply DedupeKey_eqb_refl).
    cbn [notifications insert_notification].
    rewrite filter_app, length_app. cbn [filter]. rewrite Pn.
    cbn [length]. lia. }
  split; [exact A|]. split.
  - intro H. split; [exact (C H)|]. rewrite (B H). reflexivity.
  - intro H.
    set (db' := CheckClockStatus.sendNotification now db id title type date).
    assert (One : length (filter p (notifications db')) = 1%nat).
    { destruct (Nat.eq_dec (length (filter p (notifications db))) 1)
        as [E|E].
      - unfold db'. rewrite (A E). exact E.
      - unfold db'. rewrite (C E). lia. }
    unfold CheckClockStatus.sendNotification. fold key. fold p.
    apply maybeSingle_length in One. destruct One as [x ->]. reflexivity.
Qed.

End OvertimeFacts.

(** * overtimeUtils *)

Module OvertimeUtils.

(** The arguments are the instants the two ISO strings denote. *)
Definition calculateOvertimeHours (clockIn clockOut : Z) : number :=
  let diffMs := clockOut - clockIn in
  (inject_Z diffMs / inject_Z (1000 * 60 * 60))%Q.

Definition isWithinOvertimeLimit (hours : number) : bool := Qle_bool hours 3.

End OvertimeUtils.

(** * The overtime sweep without grace period

    The variant of check-ot-autoclockout kept beside check-grace-expiry: the
    exit check looks for a single unresolved exit and closes at once.  Its
    [autoClockOut] writes the same columns as the one of
    [CheckOtAutoclockout], which is used here. *)

Module OtAutoclockoutNoGrace.

Import CheckOtAutoclockout.

Definition MAX_OT_HOURS : number := 3%Q.

Definition exitReason : string := "Left job site during overtime".
Definition limitReason : string := "Maximum 3-hour OT limit reached".

(** The body of the loop [for (const entry of activeOTs)]. *)
Definition checkEntry (now : Z) (acc : nat * Db) (entry : ActiveOT)
  : nat * Db :=
  let (autoClockedOut, db) := acc in
  let hoursWorked := hoursBetween now (a_clock_in entry) in
  (* Check 1: Geofence exit detected *)
  let exitEvent :=
    maybeSingle (filter (unresolvedExit (a_id entry)) (geofence_events db)) in
  match exitEvent with
  | Some _ => (S autoClockedOut, autoClockOut now db entry exitReason)
  | None =>
      (* Check 2: 3-hour limit reached *)
      if Qle_bool MAX_OT_HOURS hoursWorked
      then (S autoClockedOut, autoClockOut now db entry limitReason)
      else acc
  end.

Definition sweep (now : Z) (db : Db) : nat * Db :=
  let activeOTs :=
    map activeOT
        (filter (fun ce => is_overtime ce && isNull (clock_out ce))
                (clock_entries db)) in
  fold_left (checkEntry now) activeOTs (0%nat, db).

End OtAutoclockoutNoGrace.

(** * The forced overtime clock-out

    The variant of check-clock-status that only closes overtime sessions
    past three hours. *)

Module ForceOtAutoclockout.

Inductive Reason :=
| LeftSite (exitTime : Z)
| Exceeded (hrs : number).

(** [reason.includes("site")]. *)
Definition includesSite (r : Reason) : bool :=
  match r with LeftSite _ => true | Exceeded _ => false end.

(** The columns written by [autoClockOutOT]. *)
Definition clockOutUpdate (now : Z) (reason : Reason) (totalHrs : number)
    (ce : ClockEntry) : ClockEntry :=
  {| ce_id := ce_id ce;
     ce_worker_id := ce_worker_id ce;
     ce_job_id := ce_job_id ce;
     clock_in := clock_in ce;
     clock_out := Some now;
     clock_out_lat := clock_out_lat ce;
     clock_out_lng := clock_out_lng ce;
     is_overtime := is_overtime ce;
     auto_clocked_out := true;
     auto_clockout_type :=
       Some (if includesSite reason then "geofence_based"
             else "ot_time_based")%string;
     auto_clockout_reason := auto_clockout_reason ce;
     total_hours := Some (Qmax 0 totalHrs);
     geofence_exit_data := geofence_exit_data ce;
     status := status ce |}.

Definition autoClockOutOT (now : Z) (db : Db) (ot : ClockEntry) (date : Z)
    (reason : Reason) : Db :=
  let totalHrs := hoursBetween now (clock_in ot) in
  let matches := fun ce => String.eqb (ce_id ce) (ce_id ot) in
  (* [.update(...).eq("id", ot.id).select()]: the rows written come back *)
  let updated :=
    map (clockOutUpdate now reason totalHrs)
        (filter matches (clock_entries db)) in
  let db1 :=
    set_clock_entries db
      (update_where matches (clockOutUpdate now reason totalHrs)
                    (clock_entries db)) in
  match updated with
  | [] => db1
  | _ :: _ =>
      (* mark geofence events as resolved *)
      let db2 := resolveExits db1 (ce_id ot) now in
      let title :=
        (if includesSite reason
         then "Auto Clocked-Out - Left Site During OT"
         else "Auto Clocked-Out - 3 Hour OT Limit Reached")%string in
      let db3 :=
        CheckClockStatus.sendNotification
          now db2 (ce_worker_id ot) title "ot_auto_clockout" date in
      CheckClockStatus.logNotification
        now db3 (ce_worker_id ot) "ot_auto_clockout" date
  end.

(** The body of the loop of [checkActiveOvertimeSessions]. *)
Definition checkSession (now date : Z) (acc : nat * Db) (ot : ClockEntry)
  : nat * Db :=
  let (clockedOut, db) := acc in
  let hrs := hoursBetween now (clock_in ot) in
  (* check geofence exits *)
  let exits :=
    orderByTimestampDesc
      (filter (unresolvedExit (ce_id ot)) (geofence_events db)) in
  let expired :=
    match nth_error exits (length exits - 1) with
    | Some e =>
        if 5 * 60 * 1000 <=? now - timestamp e
        then Some (timestamp e) else None
    | None => None
    end in
  match expired with
  | Some exitTime =>
      (S clockedOut, autoClockOutOT now db ot date (LeftSite exitTime))
  | None =>
      (* force clock-out if > 3 hours *)
      if Qlt_bool 3 hrs
      then (S clockedOut, autoClockOutOT now db ot date (Exceeded hrs))
      else acc
  end.

Definition checkActiveOvertimeSessions (now : Z) (db : Db) (date : Z)
  : nat * Db :=
  let activeOTs :=
    filter (fun ce => is_overtime ce && isNull (clock_out ce))
           (clock_entries db) in
  fold_left (checkSession now date) activeOTs (0%nat, db).

End ForceOtAutoclockout.

(** * Properties of the overtime utilities and variants *)

Module OvertimeVariantsFacts.

(** [isWithinOvertimeLimit] of the hours computed by
    [calculateOvertimeHours] holds exactly when clock-out is at most three
    hours (10,800,000 ms) after clock-in; and the hours recorded by
    [autoClockOutOT] of check-clock-status always pass
    [isWithinOvertimeLimit]. *)
Theorem overtime_limit_checks :
  (forall clockIn clockOut : Z,
      OvertimeUtils.isWithinOvertimeLimit
        (OvertimeUtils.calculateOvertimeHours clockIn clockOut) = true
      <-> clockOut - clockIn <= 3 * MS_PER_HOUR)
  /\ (forall (now : Z) (db : Db) (ot : ClockEntry) (date : Z)
             (reason : CheckClockStatus.Reason) (forcedHours : option number)
             (r : ClockEntry),
         In r (clock_entries
                 (CheckClockStatus.autoClockOutOT now db ot date reason
                                                  forcedHours)) ->
         ce_id r = ce_id ot ->
         exists h, total_hours r = Some h
                   /\ OvertimeUtils.isWithinOvertimeLimit h = true).
Proof.
  split.
  - intros clockIn clockOut.
    unfold OvertimeUtils.isWithinOvertimeLimit,
           OvertimeUtils.calculateOvertimeHours.
    rewrite Qle_bool_iff. cbv zeta.
    unfold Qle, Qdiv, Qmult, Qinv, inject_Z, MS_PER_HOUR. simpl. lia.
  - intros now db ot date reason forcedHours r Hin Hid.
    destruct (OvertimeMonitor.autoClockOutOT_capped
                now db ot date reason forcedHours r Hin Hid)
      as (h & Hh & Hle & _).
    exists h. split; [exact Hh|].
    unfold OvertimeUtils.isWithinOvertimeLimit. apply Qle_bool_iff. exact Hle.
Qed.

Lemma overtime_limit_checks_witness :
  OvertimeUtils.isWithinOvertimeLimit
    (OvertimeUtils.calculateOvertimeHours
       OvertimeMonitor.demoT0 OvertimeMonitor.demo3h) = true.
Proof.
  apply (proj1 overtime_limit_checks). vm_compute. discriminate.
Defined.

Import CheckOtAutoclockout.

(** In the sweep without grace period the exit check fires only when the
    entry has exactly one unresolved exit: then the entry is closed at once,
    whatever the age of the exit and the hours worked.  With none, or with
    several (the single-row lookup fails), only the three-hour limit
    applies. *)
Theorem noGrace_exit_check (now : Z) (n : nat) (db : Db) (entry : ActiveOT) :
  let k := length (filter (unresolvedExit (a_id entry)) (geofence_events db)) in
  let r := OtAutoclockoutNoGrace.checkEntry now (n, db) entry in
  (k = 1%nat ->
   r = (S n, autoClockOut now db entry OtAutoclockoutNoGrace.exitReason))
  /\ (k <> 1%nat ->
      (hoursBetween now (a_clock_in entry) < 3)%Q -> r = (n, db))
  /\ (k <> 1%nat ->
      (3 <= hoursBetween now (a_clock_in entry))%Q ->
      r = (S n, autoClockOut now db entry OtAutoclockoutNoGrace.limitReason)).
Proof.
  cbv zeta. unfold OtAutoclockoutNoGrace.checkEntry.
  set (l := filter (unresolvedExit (a_id entry)) (geofence_events db)).
  pose proof (OvertimeFacts.maybeSingle_length l) as M.
  unfold OtAutoclockoutNoGrace.MAX_OT_HOURS.
  split; [|split].
  - intro Hk. apply M in Hk. destruct Hk as [x ->]. reflexivity.
  - intros Hk Hh.
    destruct (maybeSingle l) as [x|] eqn:E.
    { exfalso. apply Hk, M. exists x. reflexivity. }
    replace (Qle_bool 3 (hoursBetween now (a_clock_in entry))) with false
      by (symmetry; apply Qle_bool_false_iff; exact Hh).
    reflexivity.
  - intros Hk Hh.
    destruct (maybeSingle l) as [x|] eqn:E.
    { exfalso. apply Hk, M. exists x. reflexivity. }
    apply Qle_bool_iff in Hh. rewrite Hh. reflexivity.
Qed.

Lemma forced_clock_entries (now : Z) (db : Db) (ot : ClockEntry) (date : Z)
    (reason : ForceOtAutoclockout.Reason) :
  clock_entries (ForceOtAutoclockout.autoClockOutOT now db ot date reason)
  = update_where (fun ce => String.eqb (ce_id ce) (ce_id ot))
      (ForceOtAutoclockout.clockOutUpdate
         now reason (hoursBetween now (clock_in ot)))
      (clock_entries db).
Proof.
  unfold ForceOtAutoclockout.autoClockOutOT. cbv zeta.
  destruct (map _ _); [reflexivity|].
  simpl clock_entries.
  rewrite OvertimeMonitor.sendNotification_clock_entries. reflexivity.
Qed.

(** The forced clock-out does nothing at all when no session has the id
    (no event is resolved, no notification is written or logged), and the
    hours it records on the sessions it closes are never negative. *)
Theorem forced_clock_out_guarded (now : Z) (db : Db) (ot : ClockEntry)
    (date : Z) (reason : ForceOtAutoclockout.Reason) :
  let db' := ForceOtAutoclockout.autoClockOutOT now db ot date reason in
  ((forall ce, In ce (clock_entries db) -> ce_id ce <> ce_id ot) -> db' = db)
  /\ (forall r, In r (clock_entries db') -> ce_id r = ce_id ot ->
                clock_out r = Some now
                /\ exists h, total_hours r = Some h /\ (0 <= h)%Q).
Proof.
  cbv zeta. split.
  - intro H. unfold ForceOtAutoclockout.autoClockOutOT. cbv zeta.
    assert (N : forall ce, In ce (clock_entries db) ->
                           String.eqb (ce_id ce) (ce_id ot) = false)
      by (intros ce Hce; apply String.eqb_neq; apply H; exact Hce).
    rewrite (filter_none _ _ N). simpl map. cbv iota.
    rewrite (update_where_none _ _ _ N). destruct db; reflexivity.
  - intros r Hin Hid. rewrite forced_clock_entries in Hin.
    unfold update_where in Hin. apply in_map_iff in Hin.
    destruct Hin as (x & Hx & _).
    destruct (String.eqb (ce_id x) (ce_id ot)) eqn:E.
    + subst r. simpl. split; [reflexivity|].
      eexists. split; [reflexivity|]. apply Q.le_max_l.
    + subst r. rewrite Hid, String.eqb_refl in E. discriminate E.
Qed.

(** The forced clock-out uses a strict limit: a session at exactly three
    hours (or less) with no unresolved exit older than five minutes is left
    open and the store is unchanged. *)
Theorem forced_clock_out_strict_limit (now date : Z) (n : nat) (db : Db)
    (ot : ClockEntry) :
  (hoursBetween now (clock_in ot) <= 3)%Q ->
  (forall e, In e (geofence_events db) ->
             unresolvedExit (ce_id ot) e = true ->
             now - timestamp e < 5 * 60 * 1000) ->
  ForceOtAutoclockout.checkSession now date (n, db) ot = (n, db).
Proof.
  intros Hh Hq. unfold ForceOtAutoclockout.checkSession.
  set (l := filter (unresolvedExit (ce_id ot)) (geofence_events db)).
  assert (Hb : Qlt_bool 3 (hoursBetween now (clock_in ot)) = false).
  { unfold Qlt_bool. apply negb_false_iff, Qle_bool_iff. exact Hh. }
  destruct (nth_error (orderByTimestampDesc l)
                      (length (orderByTimestampDesc l) - 1)) as [e|] eqn:E.
  - apply nth_error_In in E.
    apply (proj1 (OvertimeFacts.orderByTimestampDesc_In e l)) in E.
    unfold l in E. apply filter_In in E. destruct E as [E1 E2].
    specialize (Hq e E1 E2). cbv zeta.
    replace (5 * 60 * 1000 <=? now - timestamp e) with false
      by (symmetry; apply Z.leb_gt; exact Hq).
    rewrite Hb. reflexivity.
  - rewrite Hb. reflexivity.
Qed.

Lemma noGrace_exit_check_witness :
  OtAutoclockoutNoGrace.checkEntry
    OvertimeFacts.demo2h (0%nat, OvertimeFacts.demoSessions)
    (activeOT (OvertimeMonitor.otSession None None))
  = (0%nat, OvertimeFacts.demoSessions).
Proof.
  apply (proj1 (proj2 (noGrace_exit_check
                         OvertimeFacts.demo2h 0 OvertimeFacts.demoSessions
                         (activeOT (OvertimeMonitor.otSession None None))))).
  - discriminate.
  - reflexivity.
Defined.

Lemma forced_clock_out_guarded_witness :
  ForceOtAutoclockout.autoClockOutOT
    OvertimeMonitor.demo4h30 (OvertimeMonitor.otStore [])
    (OvertimeMonitor.otSession None None) OvertimeMonitor.demo4h30
    (ForceOtAutoclockout.Exceeded (45 # 10))
  = OvertimeMonitor.otStore [].
Proof.
  apply (proj1 (forced_clock_out_guarded
                  OvertimeMonitor.demo4h30 (OvertimeMonitor.otStore [])
                  (OvertimeMonitor.otSession None None)
                  OvertimeMonitor.demo4h30
                  (ForceOtAutoclockout.Exceeded (45 # 10)))).
  intros ce [].
Defined.

Lemma forced_clock_out_strict_limit_witness :
  ForceOtAutoclockout.checkSession
    OvertimeMonitor.demo3h OvertimeMonitor.demo3h
    (0%nat, OvertimeMonitor.otStore [OvertimeMonitor.otSession None None])
    (OvertimeMonitor.otSession None None)
  = (0%nat, OvertimeMonitor.otStore [OvertimeMonitor.otSession None None]).
Proof.
  apply forced_clock_out_strict_limit.
  - unfold Qle. vm_compute. discriminate.
  - intros e [].
Defined.

End OvertimeVariantsFacts.
